(** * Chronosonic (YT-Streamer Pro): queue, A/B loop, temp files, playlist store

    A shallow embedding of the state-carrying parts of [chronosonic.py]:
    the methods of [YTStreamerWidget] that move the queue cursor, hold the
    A/B loop points, apply a resolved track, page through search results
    and read or write the JSON playlist store, together with the
    module-level helpers [load_json_file] and [save_json_file].

    The widget object ([self]), the file system and the calls made on Qt
    objects are one explicit state; a method is a computation in a state and
    exception monad over it.  Calls on Qt widgets and on the media player
    are recorded, in order, in a trace. *)

From Stdlib Require Import ZArith List Bool Lia.
From stdpp Require Import base option list strings gmap pretty sorting.

Local Open Scope string_scope.
Local Open Scope list_scope.
Local Open Scope Z_scope.

(** ** Python values *)

(** The values that travel through the program as [dict]s, [list]s and
    scalars: search entries, track snapshots, the playlist store.  Floats do
    not occur in what is modelled here. *)
#[warnings="-register-all"]
Inductive value : Type :=
| VNone
| VBool (b : bool)
| VInt (n : Z)
| VStr (s : string)
| VList (l : list value)
| VDict (d : list (string * value)).

(** A [dict] with string keys, in insertion order, keys unique. *)
Abbreviation dict := (list (string * value)).

(** [bool(v)] *)
Definition truthy (v : value) : bool :=
  match v with
  | VNone => false
  | VBool b => b
  | VInt n => negb (n =? 0)%Z
  | VStr s => negb (String.eqb s "")
  | VList l => match l with [] => false | _ => true end
  | VDict d => match d with [] => false | _ => true end
  end.

(** [a or b] *)
Definition py_or (a b : value) : value := if truthy a then a else b.

(** [d.get(k)] as an option: [None] when the key is absent. *)
Fixpoint dict_lookup (k : string) (d : dict) : option value :=
  match d with
  | [] => None
  | (k', v) :: d' => if String.eqb k k' then Some v else dict_lookup k d'
  end.

(** [d.get(k, default)] *)
Definition dict_get (k : string) (default : value) (d : dict) : value :=
  match dict_lookup k d with Some v => v | None => default end.

(** [d[k] = v]: an existing key keeps its place, a new key goes last. *)
Fixpoint dict_set (k : string) (v : value) (d : dict) : dict :=
  match d with
  | [] => [(k, v)]
  | (k', v') :: d' =>
      if String.eqb k k' then (k', v) :: d' else (k', v') :: dict_set k v d'
  end.

(** [l[offset:offset+batch]] for non-negative bounds. *)
Definition py_slice {A} (offset batch : nat) (l : list A) : list A :=
  take batch (drop offset l).

(** ** Exceptions *)

Inductive exn : Type :=
| RuntimeError (msg : string)
| AttributeError
| TypeError
| IndexError
| KeyError
| JSONDecodeError
| OSError.

Inductive outcome (A : Type) : Type :=
| Return (a : A)
| Raise (e : exn).
Arguments Return {A} a.
Arguments Raise {A} e.

(** ** The environment: libraries and platform outside the repository *)

(** [json.loads] and [json.dumps] of the Python standard library, over the
    contents of a file; which paths [Path.write_text] can write; and the
    search entry point of yt-dlp, [extract_info("ytsearch<n>:<q>")], typed
    as yt-dlp documents it: the result's [entries] (or the empty list) is a
    list of dicts. *)
Class Env : Type := {
  text : Type;
  json_loads : text -> option value;
  json_dumps : value -> text;
  writable : string -> bool;
  YTDLP_AVAILABLE : bool;
  ytsearch : nat -> string -> outcome (list dict);
}.

(** What [json] guarantees on the values above: a dumped document loads
    back as the same value. *)
Class JsonLaws (E : Env) : Prop :=
  json_loads_dumps : forall v : value, json_loads (json_dumps v) = Some v.

(** ** Constants of the module *)

Definition PLAYLIST_DB : string := "playlists.json".
Definition SEARCH_BATCH : nat := 10.

(** The placeholder row of the playlist combo box. *)
Definition SELECT_PLAYLIST : string := "Select playlist...".

(** ** Tracks *)

Record Track : Type := mkTrack {
  id : value;
  title : value;
  uploader : value;
  webpage_url : value;
  duration : value;
  thumbnail : value;
  formats : value;
  entry : value;
}.

(** [Track(...)] followed by [__post_init__]: a [formats] of [None] becomes
    the empty list. *)
Definition Track_init (id title uploader webpage_url duration thumbnail
                       formats entry : value) : Track :=
  mkTrack id title uploader webpage_url duration thumbnail
          (match formats with VNone => VList [] | f => f end) entry.

(** ** What the program does to the outside: the trace *)

(** The text of a status-bar message, with the data its f-string shows. *)
Inductive status : Type :=
| MsgEndOfQueue
| MsgLoading (title : value)
| MsgPlaying (title : value)
| MsgFailedToLoad (e : exn)
| MsgPlaybackFailed
| MsgPointASet (pos : Z)
| MsgPointBSet (pos : Z)
| MsgPointBMustBeAfterA
| MsgABCleared
| MsgSearchError (e : exn)
| MsgLoadedResults (n total : nat)
| MsgSelectPlaylistFirst
| MsgPlaylistEmpty
| MsgLoadedTracks (n : nat) (sel : string)
| MsgInvalidPlaylistFormat
| MsgImported (name : value)
| MsgImportFailed
| MsgSelectPlaylistToExport
| MsgPlaylistNotFound
| MsgExportedTo (path : string)
| MsgExportFailed.

(** The work handed to a [WorkerThread]. *)
Inductive job : Type :=
| ExtractOrDownload (track : Track) (idx : Z)
| SearchBatch (q : string) (batch offset : nat)
| FetchThumbnail (url : value).

Inductive effect : Type :=
| ShowStatus (msg : status) (duration : Z)
| LogInfo (msg : string)
| LogError (msg : string)
| LogException (msg : string)
| StartWorker (j : job)
| PlayPauseSetEnabled (b : bool)
| PlayPauseSetTextPause
| PositionSliderSetEnabled (b : bool)
| PositionSliderSetValue (pos_ms dur : Z)
| TimeLabelSetText (pos_ms dur : Z)
| WindowSetTitle (title : value)
| WindowSetTitleProgress (pos_ms dur : Z) (title : value)
| NowPlayingThumb (thumb : value)
| PlayerSetSource (is_local : bool) (path_or_url : string)
| PlayerSetPlaybackRate
| PlayerPlay
| PlayerSetPosition (pos : Z)
| SearchBtnSetEnabled (b : bool)
| MoreBtnSetEnabled (b : bool)
| ResultsListAddItem (r : dict)
| PlaylistComboReset
| PlaylistComboAddItems (names : list string).

Section Program.
Context {E : Env}.

(** ** The state *)

(** The attributes [setup_data] creates on the widget, the rows and the
    current row of the queue list widget, the file system, and the trace.
    [fs] holds the files the program reads and writes by path.  The
    logger's own file, [yt_streamer_plus.log], is not among them: a record
    appended to it is a [LogInfo], [LogError] or [LogException] effect of
    the trace. *)
Record State : Type := mkState {
  search_results : list dict;
  search_offset : nat;
  query : string;
  queue : list Track;
  queue_index : Z;
  shuffle_on : bool;
  repeat_mode : Z;
  current_temp_file : option string;
  duration_ms : Z;
  updating_slider : bool;
  point_a : option Z;
  point_b : option Z;
  queue_list : list dict;
  queue_list_row : Z;
  fs : gmap string text;
  trace : list effect;
}.

(** [setup_data], on a given file system. *)
Definition setup_data (files : gmap string text) : State :=
  {| search_results := []; search_offset := 0%nat; query := "";
     queue := []; queue_index := -1;
     shuffle_on := false; repeat_mode := 0;
     current_temp_file := None;
     duration_ms := 0; updating_slider := false;
     point_a := None; point_b := None;
     queue_list := []; queue_list_row := -1;
     fs := files; trace := [] |}.

Definition with_search (rs : list dict) (off : nat) (s : State) : State :=
  mkState rs off (query s) (queue s) (queue_index s) (shuffle_on s)
    (repeat_mode s) (current_temp_file s) (duration_ms s) (updating_slider s)
    (point_a s) (point_b s) (queue_list s) (queue_list_row s) (fs s) (trace s).

Definition with_queue (q : list Track) (s : State) : State :=
  mkState (search_results s) (search_offset s) (query s) q (queue_index s)
    (shuffle_on s) (repeat_mode s) (current_temp_file s) (duration_ms s)
    (updating_slider s) (point_a s) (point_b s) (queue_list s)
    (queue_list_row s) (fs s) (trace s).

Definition with_queue_index (i : Z) (s : State) : State :=
  mkState (search_results s) (search_offset s) (query s) (queue s) i
    (shuffle_on s) (repeat_mode s) (current_temp_file s) (duration_ms s)
    (updating_slider s) (point_a s) (point_b s) (queue_list s)
    (queue_list_row s) (fs s) (trace s).

Definition with_current_temp_file (f : option string) (s : State) : State :=
  mkState (search_results s) (search_offset s) (query s) (queue s)
    (queue_index s) (shuffle_on s) (repeat_mode s) f (duration_ms s)
    (updating_slider s) (point_a s) (point_b s) (queue_list s)
    (queue_list_row s) (fs s) (trace s).

Definition with_duration_ms (d : Z) (s : State) : State :=
  mkState (search_results s) (search_offset s) (query s) (queue s)
    (queue_index s) (shuffle_on s) (repeat_mode s) (current_temp_file s) d
    (updating_slider s) (point_a s) (point_b s) (queue_list s)
    (queue_list_row s) (fs s) (trace s).

Definition with_updating_slider (b : bool) (s : State) : State :=
  mkState (search_results s) (search_offset s) (query s) (queue s)
    (queue_index s) (shuffle_on s) (repeat_mode s) (current_temp_file s)
    (duration_ms s) b (point_a s) (point_b s) (queue_list s)
    (queue_list_row s) (fs s) (trace s).

Definition with_point_a (a : option Z) (s : State) : State :=
  mkState (search_results s) (search_offset s) (query s) (queue s)
    (queue_index s) (shuffle_on s) (repeat_mode s) (current_temp_file s)
    (duration_ms s) (updating_slider s) a (point_b s) (queue_list s)
    (queue_list_row s) (fs s) (trace s).

Definition with_point_b (b : option Z) (s : State) : State :=
  mkState (search_results s) (search_offset s) (query s) (queue s)
    (queue_index s) (shuffle_on s) (repeat_mode s) (current_temp_file s)
    (duration_ms s) (updating_slider s) (point_a s) b (queue_list s)
    (queue_list_row s) (fs s) (trace s).

Definition with_queue_list (rows : list dict) (row : Z) (s : State) : State :=
  mkState (search_results s) (search_offset s) (query s) (queue s)
    (queue_index s) (shuffle_on s) (repeat_mode s) (current_temp_file s)
    (duration_ms s) (updating_slider s) (point_a s) (point_b s) rows row
    (fs s) (trace s).

Definition with_fs (files : gmap string text) (s : State) : State :=
  mkState (search_results s) (search_offset s) (query s) (queue s)
    (queue_index s) (shuffle_on s) (repeat_mode s) (current_temp_file s)
    (duration_ms s) (updating_slider s) (point_a s) (point_b s)
    (queue_list s) (queue_list_row s) files (trace s).

Definition with_trace (t : list effect) (s : State) : State :=
  mkState (search_results s) (search_offset s) (query s) (queue s)
    (queue_index s) (shuffle_on s) (repeat_mode s) (current_temp_file s)
    (duration_ms s) (updating_slider s) (point_a s) (point_b s)
    (queue_list s) (queue_list_row s) (fs s) t.

Definition with_modes (shuffle : bool) (repeat : Z) (s : State) : State :=
  mkState (search_results s) (search_offset s) (query s) (queue s)
    (queue_index s) shuffle repeat (current_temp_file s)
    (duration_ms s) (updating_slider s) (point_a s) (point_b s)
    (queue_list s) (queue_list_row s) (fs s) (trace s).

(** ** The monad: state, and exceptions that keep the state reached *)

Definition M (A : Type) : Type := State -> outcome A * State.

Definition ret {A} (a : A) : M A := fun s => (Return a, s).

Definition bind {A B} (m : M A) (k : A -> M B) : M B :=
  fun s => match m s with
           | (Return a, s') => k a s'
           | (Raise e, s') => (Raise e, s')
           end.

Definition raise {A} (e : exn) : M A := fun s => (Raise e, s).

(** [try: body / except Exception as e: handler] *)
Definition try_except {A} (body : M A) (handler : exn -> M A) : M A :=
  fun s => match body s with
           | (Return a, s') => (Return a, s')
           | (Raise e, s') => handler e s'
           end.

Definition get : M State := fun s => (Return s, s).
Definition modify (f : State -> State) : M unit := fun s => (Return tt, f s).
Definition emit (e : effect) : M unit :=
  modify (fun s => with_trace (trace s ++ [e]) s).

(** The state a computation leaves, and what it returns. *)
Definition exec {A} (m : M A) (s : State) : State := snd (m s).
Definition result {A} (m : M A) (s : State) : outcome A := fst (m s).

End Program.

Declare Scope prog_scope.
Delimit Scope prog_scope with prog.
Notation "x ← y ; z" := (bind y (fun x => z))
  (at level 20, y at level 100, z at level 200, only parsing) : prog_scope.
Notation "x ;; z" := (bind x (fun _ => z))
  (at level 100, z at level 200, only parsing, right associativity)
  : prog_scope.

Local Open Scope prog_scope.

(** [len(l)] as a Python integer. *)
Definition len {A} (l : list A) : Z := Z.of_nat (length l).

(** Whether [v[:n]] is defined: the titles the program slices for display
    are strings when they come from yt-dlp, but a playlist file or a missing
    title can put [None] or a number there, and slicing that raises
    [TypeError]. *)
Definition sliceable (v : value) : bool :=
  match v with
  | VStr _ | VList _ => true
  | _ => false
  end.

Section Queue.
Context {E : Env}.

(** [show_status]: the widget sits in its main window, whose status bar
    shows the message. *)
Definition show_status (msg : status) (duration : Z) : M unit :=
  emit (ShowStatus msg duration).

(** The [Track] that [_queue_append] builds from an entry. *)
Definition track_of_entry (entry : dict) : Track :=
  Track_init (dict_get "id" (VStr "") entry)
             (dict_get "title" (VStr "") entry)
             (dict_get "uploader" (VStr "") entry)
             (dict_get "webpage_url" (VStr "") entry)
             (dict_get "duration" (VInt 0) entry)
             (dict_get "thumbnail" VNone entry)
             (dict_get "formats" (VList []) entry)
             (dict_get "entry" VNone entry).

(** The [Track] that [rebuild_queue_from_widget] builds from a row: as
    above, without the [entry] field. *)
Definition track_of_row (entry : dict) : Track :=
  Track_init (dict_get "id" (VStr "") entry)
             (dict_get "title" (VStr "") entry)
             (dict_get "uploader" (VStr "") entry)
             (dict_get "webpage_url" (VStr "") entry)
             (dict_get "duration" (VInt 0) entry)
             (dict_get "thumbnail" VNone entry)
             (dict_get "formats" (VList []) entry)
             VNone.

(** [_queue_append].  For a thumbnail that is true, the name of the cached
    icon is made from [hash(track.thumbnail)], which raises for a list or a
    dict; the icon itself is not part of the state. *)
Definition _queue_append (entry : dict) : M unit :=
  let track := track_of_entry entry in
  (match thumbnail track with
   | VList (_ :: _) | VDict (_ :: _) => raise TypeError
   | _ => ret tt
   end) ;;
  modify (fun s => with_queue_list (queue_list s ++ [entry]) (queue_list_row s) s) ;;
  modify (fun s => with_queue (queue s ++ [track]) s) ;;
  s ← get ;
  (if queue_index s =? -1 then modify (with_queue_index 0) else ret tt) ;;
  emit (PlayPauseSetEnabled true).

(** [rebuild_queue_from_widget]: the queue is rebuilt from the rows of the
    list widget, and the cursor adopts the widget's current row when there
    is one. *)
Definition rebuild_queue_from_widget : M unit :=
  s ← get ;
  modify (with_queue (map track_of_row (queue_list s))) ;;
  let cur := queue_list_row s in
  if 0 <=? cur then modify (with_queue_index cur) else ret tt.

(** [DraggableListWidget.dropEvent]: Qt moves the rows ([rows] and [row] are
    what it leaves as the widget's rows and current row), then the queue is
    rebuilt. *)
Definition dropEvent (rows : list dict) (row : Z) : M unit :=
  modify (with_queue_list rows row) ;;
  rebuild_queue_from_widget.

(** [_prepare_and_play]: the status message slices the title. *)
Definition _prepare_and_play (track : Track) (idx : Z) : M unit :=
  emit (LogInfo "Preparing") ;;
  emit (PlayPauseSetEnabled false) ;;
  emit (PositionSliderSetEnabled false) ;;
  (if sliceable (title track) then show_status (MsgLoading (title track)) 0
   else raise TypeError) ;;
  emit (StartWorker (ExtractOrDownload track idx)).

(** [play_index] *)
Definition play_index (idx : Z) : M unit :=
  s ← get ;
  if (idx <? 0) || (len (queue s) <=? idx) then ret tt
  else
    modify (with_queue_index idx) ;;
    match queue s !! Z.to_nat idx with
    | Some track => _prepare_and_play track idx
    | None => raise IndexError
    end.

(** [play_next]; [rand] is what [randrange(0, len(self.queue))] returns, and
    is looked at only when shuffle is on. *)
Definition play_next (rand : Z) : M unit :=
  s ← get ;
  match queue s with
  | [] => ret tt
  | _ =>
      let next_idx := if shuffle_on s then rand else queue_index s + 1 in
      if len (queue s) <=? next_idx then
        if repeat_mode s =? 1 then play_index 0
        else show_status MsgEndOfQueue 2000
      else play_index next_idx
  end.

(** [play_prev] *)
Definition play_prev : M unit :=
  s ← get ;
  match queue s with
  | [] => ret tt
  | _ =>
      let prev_idx := queue_index s - 1 in
      if prev_idx <? 0 then
        if repeat_mode s =? 1 then play_index (len (queue s) - 1)
        else play_index 0
      else play_index prev_idx
  end.

(** [on_media_status_changed]; [end_of_media] is whether the status is
    [EndOfMedia]. *)
Definition on_media_status_changed (end_of_media : bool) (rand : Z) : M unit :=
  if end_of_media then
    emit (LogInfo "Track ended") ;;
    s ← get ;
    if repeat_mode s =? 2 then play_index (queue_index s) else play_next rand
  else ret tt.

(** [highlight_playing_in_queue] *)
Definition highlight_playing_in_queue (idx : Z) : M unit :=
  s ← get ;
  if (0 <=? idx) && (idx <? len (queue_list s))
  then modify (with_queue_list (queue_list s) idx)
  else ret tt.

End Queue.

Section ABLoop.
Context {E : Env}.

(** [set_point_a]; [pos] is what [self.player.position()] returns. *)
Definition set_point_a (pos : Z) : M unit :=
  modify (with_point_a (Some pos)) ;;
  show_status (MsgPointASet pos) 2000.

(** [set_point_b]; [pos] is what [self.player.position()] returns.  The
    guard [self.point_a and pos <= self.point_a] tests the truth value of
    [point_a]: [None] and [0] are both false. *)
Definition set_point_b (pos : Z) : M unit :=
  s ← get ;
  let rejected :=
    match point_a s with
    | Some a => negb (a =? 0) && (pos <=? a)
    | None => false
    end in
  if rejected then show_status MsgPointBMustBeAfterA 3000
  else
    modify (with_point_b (Some pos)) ;;
    show_status (MsgPointBSet pos) 2000.

(** [clear_ab] *)
Definition clear_ab : M unit :=
  modify (with_point_a None) ;;
  modify (with_point_b None) ;;
  show_status MsgABCleared 2000.

(** The rest of [on_position_changed], after the A/B check: slider, time
    label, window title.  [dur] is [self.duration_ms or
    self.player.duration()].  The slider value and the percentage are
    floating-point quotients of [pos_ms] and [dur]; the trace keeps the two
    operands. *)
Definition position_display (player_duration pos_ms : Z) : M unit :=
  s ← get ;
  if updating_slider s then ret tt
  else
    let dur := if duration_ms s =? 0 then player_duration else duration_ms s in
    (if negb (dur =? 0) && (0 <? dur) then
       modify (with_updating_slider true) ;;
       emit (PositionSliderSetValue pos_ms dur) ;;
       modify (with_updating_slider false)
     else ret tt) ;;
    emit (TimeLabelSetText pos_ms dur) ;;
    if 0 <? dur then
      match queue s with
      | [] => ret tt
      | _ =>
          if (0 <=? queue_index s) && (queue_index s <? len (queue s)) then
            match queue s !! Z.to_nat (queue_index s) with
            | Some t =>
                if sliceable (title t)
                then emit (WindowSetTitleProgress pos_ms dur (title t))
                else raise TypeError
            | None => raise IndexError
            end
          else ret tt
      end
    else ret tt.

(** [on_position_changed]; [player_duration] is what
    [self.player.duration()] returns. *)
Definition on_position_changed (player_duration pos_ms : Z) : M unit :=
  s ← get ;
  let loop_back :=
    match point_a s, point_b s with
    | Some a, Some b => if b <=? pos_ms then Some a else None
    | _, _ => None
    end in
  match loop_back with
  | Some a => emit (PlayerSetPosition a)
  | None => position_display player_duration pos_ms
  end.

End ABLoop.

Section Resolution.
Context {E : Env}.

(** What a successful [_extract_or_download] returns:
    [(is_local, path_or_url, title, duration_ms, info)]. *)
Record resolved : Type := mkResolved {
  is_local : bool;
  path_or_url : string;
  resolved_title : value;
  resolved_duration_ms : Z;
  info : value;
}.

(** The one thing [_extract_or_download] does to the file system: on its
    download path yt-dlp leaves the new file [path] in the temp directory,
    before the completion is delivered. *)
Definition download_to (path : string) (content : text) : M unit :=
  modify (fun s => with_fs (<[path := content]> (fs s)) s).

(** The thumbnail [_on_url_ready] picks from [info]: [info["thumbnail"]],
    else the [url] of the last of [info["thumbnails"]].  Indexing or
    [.get] on a value of the wrong shape raises; the caller's handler does
    not look at the kind of exception. *)
Definition now_playing_thumb (info : value) : M value :=
  match info with
  | VDict d =>
      let thumb := dict_get "thumbnail" VNone d in
      let thumbs := dict_get "thumbnails" VNone d in
      if negb (truthy thumb) && truthy thumbs then
        match thumbs with
        | VList l =>
            match last l with
            | Some (VDict t) => ret (dict_get "url" VNone t)
            | _ => raise AttributeError
            end
        | _ => raise TypeError
        end
      else ret thumb
  | _ => ret VNone
  end.

(** [_on_url_ready]; the worker's [(ok, result)] is an [outcome].
    [apply_speed_setting] is the one call [PlayerSetPlaybackRate]. *)
Definition _on_url_ready (res : outcome resolved) (idx : Z) : M unit :=
  match res with
  | Raise e =>
      emit (LogError "Prepare failed") ;;
      show_status (MsgFailedToLoad e) 5000
  | Return r =>
      modify (with_duration_ms (resolved_duration_ms r)) ;;
      try_except
        ((if is_local r
          then modify (with_current_temp_file (Some (path_or_url r)))
          else modify (with_current_temp_file None)) ;;
         thumb ← now_playing_thumb (info r) ;
         (if truthy thumb then emit (NowPlayingThumb thumb) else ret tt) ;;
         emit (PlayerSetSource (is_local r) (path_or_url r)) ;;
         emit PlayerSetPlaybackRate ;;
         emit PlayerPlay ;;
         emit (PlayPauseSetEnabled true) ;;
         emit PlayPauseSetTextPause ;;
         emit (PositionSliderSetEnabled true) ;;
         highlight_playing_in_queue idx ;;
         (if sliceable (resolved_title r)
          then show_status (MsgPlaying (resolved_title r)) 3000
          else raise TypeError) ;;
         emit (WindowSetTitle (resolved_title r)))
        (fun _ =>
           emit (LogException "Playback start failed") ;;
           show_status MsgPlaybackFailed 5000)
  end.

(** [Path.unlink]: fails where the platform does not let the path be
    written. *)
Definition unlink (path : string) : M unit :=
  if writable path then modify (fun s => with_fs (delete path (fs s)) s)
  else raise OSError.

(** [cleanup], called from [closeEvent]. *)
Definition cleanup : M unit :=
  try_except
    (s ← get ;
     match current_temp_file s with
     | Some f =>
         if negb (String.eqb f "") && bool_decide (is_Some (fs s !! f)) then
           unlink f ;;
           emit (LogInfo "Cleaned up temp file")
         else ret tt
     | None => ret tt
     end)
    (fun _ => emit (LogException "Cleanup failed")).

End Resolution.

Section Store.
Context {E : Env}.

(** [Path.read_text] *)
Definition read_text (path : string) : M text :=
  s ← get ;
  match fs s !! path with
  | Some t => ret t
  | None => raise OSError
  end.

(** [Path.write_text] *)
Definition write_text (path : string) (t : text) : M unit :=
  if writable path then modify (fun s => with_fs (<[path := t]> (fs s)) s)
  else raise OSError.

(** [json.loads] of a file's contents. *)
Definition loads (t : text) : M value :=
  match json_loads t with
  | Some v => ret v
  | None => raise JSONDecodeError
  end.

(** [load_json_file]; a [default] of [None] is [VNone].  What the logger
    writes goes to the trace: its own file is not among the files of [fs]. *)
Definition load_json_file (path : string) (default : value) : M value :=
  s ← get ;
  loaded ←
    (if bool_decide (is_Some (fs s !! path)) then
       try_except
         (t ← read_text path ;
          v ← loads t ;
          ret (Some v))
         (fun _ => emit (LogException "Failed to read") ;; ret None)
     else ret None) ;
  match loaded with
  | Some v => ret v
  | None => ret (match default with VNone => VDict [] | d => d end)
  end.

(** [save_json_file] *)
Definition save_json_file (path : string) (data : value) : M unit :=
  try_except
    (write_text path (json_dumps data))
    (fun _ => emit (LogException "Failed to save")).

(** [db.keys()], [db.get(k)] and [db[k] = v] on what [load_json_file]
    returned, which is a dict only if the file held one. *)
Definition py_keys (db : value) : M (list string) :=
  match db with
  | VDict d => ret (map fst d)
  | _ => raise AttributeError
  end.

Definition py_get (db : value) (k : string) (default : value) : M value :=
  match db with
  | VDict d => ret (dict_get k default d)
  | _ => raise AttributeError
  end.

(** The key under which [json.dumps] writes a dict key: strings as they
    are, [None], booleans and integers in their JSON spelling. *)
Definition json_key (name : value) : option string :=
  match name with
  | VStr s => Some s
  | VNone => Some "null"
  | VBool true => Some "true"
  | VBool false => Some "false"
  | VInt n => Some (pretty n)
  | VList _ | VDict _ => None
  end.

(** [l[n] = v] on a list: negative indices count from the end. *)
Definition list_setitem (l : list value) (n : Z) (v : value) : M value :=
  let i := if n <? 0 then n + len l else n in
  if (0 <=? i) && (i <? len l)
  then ret (VList (<[Z.to_nat i := v]> l))
  else raise IndexError.

(** [db[name] = v].  On a dict: a list or dict is not hashable; a name that
    is [None], a boolean or a number is a key of its own in memory and
    reaches the file, and every later load, under its JSON spelling, which
    is how it is kept here.  On a list, an integer name is an index.
    Nothing else can be assigned into. *)
Definition py_setitem (db : value) (name : value) (v : value) : M value :=
  match db with
  | VDict d =>
      match json_key name with
      | Some k => ret (VDict (dict_set k v d))
      | None => raise TypeError
      end
  | VList l =>
      match name with
      | VInt n => list_setitem l n v
      | VBool b => list_setitem l (if b then 1 else 0) v
      | _ => raise TypeError
      end
  | _ => raise TypeError
  end.

(** [refresh_playlists]: the combo box is emptied down to its placeholder
    row, then given the sorted names. *)
Definition refresh_playlists : M unit :=
  db ← load_json_file PLAYLIST_DB (VDict []) ;
  emit PlaylistComboReset ;;
  names ← py_keys db ;
  emit (PlaylistComboAddItems
          (merge_sort (fun a b : string => String.leb a b) names)).

(** The entry [load_selected_playlist] builds from a stored snapshot. *)
Definition entry_of_snapshot (it : dict) : dict :=
  [("id", dict_get "id" VNone it);
   ("title", dict_get "title" VNone it);
   ("uploader", dict_get "uploader" VNone it);
   ("webpage_url", dict_get "webpage_url" VNone it);
   ("duration", dict_get "duration" (VInt 0) it);
   ("thumbnail", dict_get "thumbnail" VNone it);
   ("formats", VList []);
   ("entry", VNone)].

(** The loop [for it in items] of [load_selected_playlist]: [it.get] on an
    item that is not a dict raises. *)
Fixpoint append_snapshots (items : list value) : M unit :=
  match items with
  | [] => ret tt
  | VDict it :: items' =>
      _queue_append (entry_of_snapshot it) ;;
      append_snapshots items'
  | _ :: _ => raise AttributeError
  end.

(** [load_selected_playlist]; [sel] is the combo box's current text.  The
    queue and the list widget are emptied ([QListWidget.clear] leaves no
    current row); [queue_index] is not assigned. *)
Definition load_selected_playlist (sel : string) : M unit :=
  if String.eqb sel "" || String.eqb sel SELECT_PLAYLIST then
    show_status MsgSelectPlaylistFirst 2000
  else
    db ← load_json_file PLAYLIST_DB (VDict []) ;
    items ← py_get db sel (VList []) ;
    if negb (truthy items) then show_status MsgPlaylistEmpty 2000
    else
      modify (with_queue []) ;;
      modify (with_queue_list [] (-1)) ;;
      match items with
      | VList l =>
          append_snapshots l ;;
          show_status (MsgLoadedTracks (length l) sel) 3000
      | VInt _ | VBool _ | VNone => raise TypeError
      | VStr _ | VDict _ => raise AttributeError
      end.

(** The name and the track list [import_playlist] takes from the loaded
    payload: the fields of a dict, or for a bare list a name made from the
    time [now] and the list itself. *)
Definition import_name (payload : value) (now : Z) : value :=
  match payload with
  | VDict d => dict_get "name" VNone d
  | _ => VStr ("Imported_" +:+ pretty now)
  end.

Definition import_tracks (payload : value) : value :=
  match payload with
  | VDict d => dict_get "tracks" VNone d
  | _ => payload
  end.

(** [import_playlist]; [path] is what the open-file dialog returns (empty
    when cancelled) and [now] is [int(time.time())]. *)
Definition import_playlist (path : string) (now : Z) : M unit :=
  if String.eqb path "" then ret tt
  else
    try_except
      (t ← read_text path ;
       payload ← loads t ;
       let name := import_name payload now in
       let tracks := import_tracks payload in
       match tracks with
       | VList _ =>
           db ← load_json_file PLAYLIST_DB (VDict []) ;
           db' ← py_setitem db name tracks ;
           save_json_file PLAYLIST_DB db' ;;
           refresh_playlists ;;
           show_status (MsgImported name) 3000
       | _ => show_status MsgInvalidPlaylistFormat 3000
       end)
      (fun _ =>
         emit (LogException "Import failed") ;;
         show_status MsgImportFailed 3000).

(** The document [export_selected_playlist] writes. *)
Definition export_document (sel : string) (payload : value) : value :=
  VDict [("name", VStr sel); ("tracks", payload)].

(** [export_selected_playlist]; [sel] is the combo box's current text and
    [path] what the save-file dialog returns (empty when cancelled). *)
Definition export_selected_playlist (sel path : string) : M unit :=
  if String.eqb sel "" || String.eqb sel SELECT_PLAYLIST then
    show_status MsgSelectPlaylistToExport 2000
  else
    db ← load_json_file PLAYLIST_DB (VDict []) ;
    payload ← py_get db sel VNone ;
    match payload with
    | VNone => show_status MsgPlaylistNotFound 2000
    | _ =>
        if String.eqb path "" then ret tt
        else
          try_except
            (write_text path (json_dumps (export_document sel payload)) ;;
             show_status (MsgExportedTo path) 3000)
            (fun _ =>
               emit (LogException "Export failed") ;;
               show_status MsgExportFailed 3000)
    end.

End Store.

Section Search.
Context {E : Env}.

(** The dict [_do_search_batch] builds from an entry of yt-dlp. *)
Definition processed (e : dict) : dict :=
  [("id", dict_get "id" VNone e);
   ("title", dict_get "title" VNone e);
   ("uploader",
     py_or (dict_get "uploader" VNone e)
           (py_or (dict_get "channel" VNone e) (VStr "")));
   ("webpage_url", dict_get "webpage_url" VNone e);
   ("duration", py_or (dict_get "duration" VNone e) (VInt 0));
   ("thumbnail", dict_get "thumbnail" VNone e);
   ("formats", py_or (dict_get "formats" VNone e) (VList []));
   ("entry", VDict e)].

(** [_do_search_batch], the function a worker thread runs: it asks yt-dlp
    for the first [offset + batch] results and keeps
    [entries[offset:offset+batch]]. *)
Definition _do_search_batch (q : string) (batch offset : nat)
  : outcome (list dict) :=
  if negb YTDLP_AVAILABLE then Raise (RuntimeError "yt-dlp not available")
  else
    let total_n := (offset + batch)%nat in
    match ytsearch total_n q with
    | Return entries => Return (map processed (py_slice offset batch entries))
    | Raise e => Raise e
    end.

(** The loop [for r in new_results] of [on_search_batch]: a row per result
    ([r['title']] and [r['uploader']] must be there), and a thumbnail fetch
    when the result has a thumbnail. *)
Fixpoint add_result_rows (new_results : list dict) : M unit :=
  match new_results with
  | [] => ret tt
  | r :: rest =>
      match dict_lookup "title" r, dict_lookup "uploader" r with
      | Some _, Some _ =>
          emit (ResultsListAddItem r) ;;
          (let thumb := dict_get "thumbnail" VNone r in
           if truthy thumb then emit (StartWorker (FetchThumbnail thumb))
           else ret tt) ;;
          add_result_rows rest
      | _, _ => raise KeyError
      end
  end.

(** [on_search_batch]; the worker's [(ok, result)] is an [outcome]. *)
Definition on_search_batch (res : outcome (list dict)) : M unit :=
  emit (SearchBtnSetEnabled true) ;;
  match res with
  | Raise e =>
      emit (LogError "Search failed") ;;
      show_status (MsgSearchError e) 5000
  | Return new_results =>
      modify (fun s =>
        with_search (search_results s ++ new_results) (search_offset s) s) ;;
      add_result_rows new_results ;;
      modify (fun s =>
        with_search (search_results s) (length (search_results s)) s) ;;
      emit (MoreBtnSetEnabled (SEARCH_BATCH <=? length new_results)%nat) ;;
      s ← get ;
      show_status
        (MsgLoadedResults (length new_results) (length (search_results s)))
        3000
  end.


End Search.

(** ** More of the widget: the list handlers, the timer, the config *)

(** [a == b] on the values above: [True == 1] and [False == 0] as in
    Python, lists element by element, dicts key by key whatever the
    order. *)
Fixpoint py_eq (a b : value) {struct a} : bool :=
  match a, b with
  | VNone, VNone => true
  | VBool x, VBool y => Bool.eqb x y
  | VBool x, VInt n => n =? (if x then 1 else 0)
  | VInt n, VBool x => n =? (if x then 1 else 0)
  | VInt n, VInt m => n =? m
  | VStr s, VStr t => String.eqb s t
  | VList l, VList l' =>
      (fix all_eq (l l' : list value) {struct l} : bool :=
         match l, l' with
         | [], [] => true
         | x :: xs, y :: ys => py_eq x y && all_eq xs ys
         | _, _ => false
         end) l l'
  | VDict d, VDict d' =>
      (length d =? length d')%nat &&
      (fix all_in (d : list (string * value)) {struct d} : bool :=
         match d with
         | [] => true
         | (k, v) :: rest =>
             match dict_lookup k d' with
             | Some v' => py_eq v v'
             | None => false
             end && all_in rest
         end) d
  | _, _ => false
  end.

Section Handlers.
Context {E : Env}.

(** [queue_and_play_from_results]; [entry] is the data of the result row
    that was double-clicked. *)
Definition queue_and_play_from_results (entry : dict) : M unit :=
  _queue_append entry ;;
  s ← get ;
  play_index (len (queue s) - 1).

(** The loop of [play_queue_item]: the index of the first track whose [id]
    equals [target], counting from [i]. *)
Fixpoint first_with_id (target : value) (i : Z) (q : list Track) : option Z :=
  match q with
  | [] => None
  | track :: q' =>
      if py_eq (id track) target then Some i
      else first_with_id target (i + 1) q'
  end.

(** [play_queue_item]; [entry] is the data of the queue row that was
    double-clicked. *)
Definition play_queue_item (entry : dict) : M unit :=
  s ← get ;
  match first_with_id (dict_get "id" VNone entry) 0 (queue s) with
  | Some i => play_index i
  | None => ret tt
  end.



End Handlers.

(** [AppConfig]: a dataclass whose fields are not type-checked, so a field
    holds whatever value the config file gave it. *)
Record AppConfig : Type := mkAppConfig {
  volume : value;
  window_width : value;
  window_height : value;
  theme : value;
  last_playlist : value;
  download_quality : value;
}.

(** [AppConfig()] *)
Definition AppConfig_default : AppConfig :=
  {| volume := VInt 68;
     window_width := VInt 1200;
     window_height := VInt 720;
     theme := VStr "dark";
     last_playlist := VStr "";
     download_quality := VStr "bestaudio" |}.

(** [asdict(self)] *)
Definition asdict (c : AppConfig) : dict :=
  [("volume", volume c);
   ("window_width", window_width c);
   ("window_height", window_height c);
   ("theme", theme c);
   ("last_playlist", last_playlist c);
   ("download_quality", download_quality c)].

(** One keyword argument of the call [cls] makes with [data] unpacked: a
    name that is not a field is a [TypeError]. *)
Definition AppConfig_set (k : string) (v : value) (c : AppConfig)
  : outcome AppConfig :=
  if String.eqb k "volume" then
    Return (mkAppConfig v (window_width c) (window_height c) (theme c)
              (last_playlist c) (download_quality c))
  else if String.eqb k "window_width" then
    Return (mkAppConfig (volume c) v (window_height c) (theme c)
              (last_playlist c) (download_quality c))
  else if String.eqb k "window_height" then
    Return (mkAppConfig (volume c) (window_width c) v (theme c)
              (last_playlist c) (download_quality c))
  else if String.eqb k "theme" then
    Return (mkAppConfig (volume c) (window_width c) (window_height c) v
              (last_playlist c) (download_quality c))
  else if String.eqb k "last_playlist" then
    Return (mkAppConfig (volume c) (window_width c) (window_height c)
              (theme c) v (download_quality c))
  else if String.eqb k "download_quality" then
    Return (mkAppConfig (volume c) (window_width c) (window_height c)
              (theme c) (last_playlist c) v)
  else Raise TypeError.

(** The keyword arguments of that call, over the defaults. *)
Fixpoint AppConfig_kwargs (d : dict) (c : AppConfig) : outcome AppConfig :=
  match d with
  | [] => Return c
  | (k, v) :: d' =>
      match AppConfig_set k v c with
      | Return c' => AppConfig_kwargs d' c'
      | Raise e => Raise e
      end
  end.

(** [cls] called with [data] unpacked: [data] must be a mapping. *)
Definition AppConfig_of (data : value) : outcome AppConfig :=
  match data with
  | VDict d => AppConfig_kwargs d AppConfig_default
  | _ => Raise TypeError
  end.

Definition CONFIG_FILE : string := "config.json".

Section Config.
Context {E : Env}.

(** [AppConfig.load] *)
Definition AppConfig_load : M AppConfig :=
  s ← get ;
  loaded ←
    (if bool_decide (is_Some (fs s !! CONFIG_FILE)) then
       try_except
         (t ← read_text CONFIG_FILE ;
          data ← loads t ;
          match AppConfig_of data with
          | Return c => ret (Some c)
          | Raise e => raise e
          end)
         (fun _ => emit (LogException "Failed to load config") ;; ret None)
     else ret None) ;
  match loaded with
  | Some c => ret c
  | None => ret AppConfig_default
  end.

(** [AppConfig.save] *)
Definition AppConfig_save (c : AppConfig) : M unit :=
  try_except
    (write_text CONFIG_FILE (json_dumps (VDict (asdict c))))
    (fun _ => emit (LogException "Failed to save config")).

(** [YTStreamerMainWindow.closeEvent]; [width], [height] and [vol] are the
    window's size and the volume slider's value.  It returns the config it
    saved. *)
Definition closeEvent (c : AppConfig) (width height vol : Z) : M AppConfig :=
  let c' := mkAppConfig (VInt vol) (VInt width) (VInt height) (theme c)
              (last_playlist c) (download_quality c) in
  AppConfig_save c' ;;
  cleanup ;;
  ret c'.

End Config.

(** ** Properties the theorems speak about *)

Section Properties.
Context {E : Env}.

(** What a computation appended to the trace. *)
Definition emitted {A} (m : M A) (s : State) : list effect :=
  drop (length (trace s)) (trace (exec m s)).

(** The queue cursor is -1 or the index of a track of the queue. *)
Definition cursor_ok (s : State) : Prop :=
  -1 <= queue_index s < len (queue s) /\
  (queue_index s = -1 \/
   exists t, queue s !! Z.to_nat (queue_index s) = Some t).

(** The list widget shows the queue: as many rows as tracks, and a current
    row that is -1 or one of them. *)
Definition widget_in_step (s : State) : Prop :=
  length (queue_list s) = length (queue s) /\
  -1 <= queue_list_row s < len (queue_list s).



(** What [_prepare_and_play] appends to the trace for a track with a
    string title. *)
Definition prepare_effects (t : Track) (idx : Z) : list effect :=
  [LogInfo "Preparing"; PlayPauseSetEnabled false;
   PositionSliderSetEnabled false; ShowStatus (MsgLoading (title t)) 0;
   StartWorker (ExtractOrDownload t idx)].

(** The same states but for the cursor and the trace. *)
Definition same_but_cursor_and_trace (s s' : State) : Prop :=
  s' = with_trace (trace s') (with_queue_index (queue_index s') s).

(** What a navigation method does in a state: nothing of the state changes
    but the cursor and the trace, and either no target is selected (the
    cursor stays and nothing is started; at the end of the queue the
    message is shown), or the cursor goes to a target inside the queue and
    the method itself hands that track to a resolution worker (for a title
    that cannot be sliced, the status message raises before the worker is
    started). *)
Definition navigation_step (m : M unit) (s : State) : Prop :=
  let s' := exec m s in
  same_but_cursor_and_trace s s' /\
  ((queue_index s' = queue_index s /\
    result m s = Return tt /\
    (emitted m s = [] \/ emitted m s = [ShowStatus MsgEndOfQueue 2000]))
   \/
   (exists t,
      0 <= queue_index s' < len (queue s) /\
      queue s !! Z.to_nat (queue_index s') = Some t /\
      if sliceable (title t)
      then result m s = Return tt /\
           emitted m s = prepare_effects t (queue_index s')
      else result m s = Raise TypeError /\
           emitted m s = take 3 (prepare_effects t (queue_index s')))).



(** A computation that leaves every file of [fs] as it is, whatever it
    returns.  The log file is not a file of [fs]: what the computation logs
    is in its trace. *)
Definition keeps_fs {A} (m : M A) : Prop :=
  forall s, fs (exec m s) = fs s.

(** The store file holds a dict in which [name] is the list [tracks]. *)
Definition stored (s : State) (name : string) (tracks : list value) : Prop :=
  exists t d,
    fs s !! PLAYLIST_DB = Some t /\
    json_loads t = Some (VDict d) /\
    dict_lookup name d = Some (VList tracks).

(** yt-dlp ranks the results of a query one way: whenever a request for
    the first [n] and a request for the first [m >= n] both succeed, they
    agree on their first [n] entries.  Nothing is asked of a request that
    is not made. *)
Definition stable_ordering (q : string) : Prop :=
  forall (n m : nat) (l l' : list dict),
    (n <= m)%nat ->
    ytsearch n q = Return l ->
    ytsearch m q = Return l' ->
    take n l = take n l'.

End Properties.

(** ** More properties *)

(** The thumbnail of an entry can be hashed for the icon's file name: it is
    not a non-empty list or dict. *)
Definition icon_name_ok (entry : dict) : bool :=
  match dict_get "thumbnail" VNone entry with
  | VList (_ :: _) | VDict (_ :: _) => false
  | _ => true
  end.

(** The name of a field of [AppConfig]. *)
Definition is_field (k : string) : bool :=
  String.eqb k "volume" || String.eqb k "window_width" ||
  String.eqb k "window_height" || String.eqb k "theme" ||
  String.eqb k "last_playlist" || String.eqb k "download_quality".

Section MoreProperties.
Context {E : Env}.

(** The state [_queue_append] leaves when it returns. *)
Definition appended (entry : dict) (s : State) : State :=
  with_trace (trace s ++ [PlayPauseSetEnabled true])
    (with_queue_index (if queue_index s =? -1 then 0 else queue_index s)
       (with_queue (queue s ++ [track_of_entry entry])
          (with_queue_list (queue_list s ++ [entry]) (queue_list_row s) s))).

(** A computation that returns normally in every state. *)
Definition never_raises {A} (m : M A) : Prop :=
  forall s, exists a, result m s = Return a.

(** A computation that leaves [f] of the state as it is, whatever it
    returns. *)
Definition preserves {A X} (f : State -> X) (m : M A) : Prop :=
  forall s, f (exec m s) = f s.

(** A computation that writes or removes no file of [fs] but [path]; the
    log file, again, is not a file of [fs]. *)
Definition writes_only {A} (path : string) (m : M A) : Prop :=
  forall s p, p <> path -> fs (exec m s) !! p = fs s !! p.

(** What navigation, resolution and position events are to leave alone:
    the queue, the cursor and the loop points. *)
Definition queue_and_loop (s : State)
  : list Track * Z * option Z * option Z :=
  (queue s, queue_index s, point_a s, point_b s).


End MoreProperties.

(** ** A concrete environment and concrete states *)

(** File contents by what [json.loads] makes of them: a JSON document, or
    text that is not JSON. *)
Inductive file_text : Type :=
| JsonText (v : value)
| OtherText (s : string).

Definition sample_entry (n : Z) : dict :=
  [("id", VStr ("id" +:+ pretty n));
   ("title", VStr ("Song " +:+ pretty n));
   ("uploader", VStr "Uploader");
   ("webpage_url", VStr ("https://example.org/watch?v=" +:+ pretty n));
   ("duration", VInt 180);
   ("thumbnail", VNone)].

(** Twenty-five ranked results for every query. *)
Definition sample_ranking : list dict :=
  map (fun n => sample_entry (Z.of_nat n)) (seq 0 25).

Definition sample_env : Env :=
  {| text := file_text;
     json_loads := fun t =>
       match t with JsonText v => Some v | OtherText _ => None end;
     json_dumps := JsonText;
     writable := fun _ => true;
     YTDLP_AVAILABLE := true;
     ytsearch := fun n _ => Return (take n sample_ranking) |}.

(** A store with one playlist, "mix", of one track. *)
Definition sample_store : value :=
  VDict [("mix", VList [VDict (sample_entry 7)])].

Definition sample_files : gmap string file_text :=
  {[ PLAYLIST_DB := JsonText sample_store ]}.

(** Three results queued and the third one played: a queue of three with
    the cursor on index 2. *)
Definition three_queued : @State sample_env :=
  exec (_queue_append (processed (sample_entry 1)) ;;
        _queue_append (processed (sample_entry 2)) ;;
        _queue_append (processed (sample_entry 3)) ;;
        play_index 2)%prog
       (setup_data (E:=sample_env) sample_files).

(** Two results queued and the second one played. *)
Definition two_queued : @State sample_env :=
  exec (_queue_append (processed (sample_entry 1)) ;;
        _queue_append (processed (sample_entry 2)) ;;
        play_index 1)%prog
       (setup_data (E:=sample_env) sample_files).

(** The results of two downloads. *)
Definition first_download : resolved :=
  mkResolved true "/tmp/ytp_1700000000.webm" (VStr "Song 1") 180000 (VDict []).
Definition second_download : resolved :=
  mkResolved true "/tmp/ytp_1700000200.webm" (VStr "Song 2") 180000 (VDict []).

(** What a downloaded media file holds: not JSON. *)
Definition sample_media : file_text := OtherText "audio".

(** The session in which two queued tracks are played one after the other,
    each through the download path, and the window is then closed. *)
Definition two_downloads_then_close : @State sample_env :=
  exec (_queue_append (processed (sample_entry 1)) ;;
        _queue_append (processed (sample_entry 2)) ;;
        play_index 0 ;;
        download_to (E:=sample_env) (path_or_url first_download) sample_media ;;
        _on_url_ready (Return first_download) 0 ;;
        play_next 0 ;;
        download_to (E:=sample_env) (path_or_url second_download) sample_media ;;
        _on_url_ready (Return second_download) 1 ;;
        cleanup)%prog
       (setup_data (E:=sample_env) sample_files).

(** A store file cut off in the middle of a write. *)
Definition corrupt_files : gmap string file_text :=
  {[ PLAYLIST_DB := OtherText "{'mix': [{'id': " ]}.

(** Point A set at the very start of a track. *)
Definition a_at_zero : @State sample_env :=
  exec (set_point_a 0) (setup_data (E:=sample_env) sample_files).

(** Both loop points set, in order. *)
Definition looping : @State sample_env :=
  exec (set_point_a 30000 ;; set_point_b 60000)%prog
       (setup_data (E:=sample_env) sample_files).

(** Two tracks queued and the first one playing. *)
Definition two_queued_first : @State sample_env :=
  exec (play_index 0) two_queued.

(** A store with a playlist whose second item is not a track, and one
    whose only track has no title. *)
Definition odd_store : value :=
  VDict [("broken", VList [VDict (sample_entry 7); VStr "oops"]);
         ("untitled", VList [VDict [("id", VStr "id9")]])].

(** Files to import: an exported playlist, a bare list, a document that is
    no playlist; beside them the odd store. *)
Definition import_files : gmap string file_text :=
  {[ PLAYLIST_DB := JsonText sample_store;
     "new.json" := JsonText (VDict [("name", VStr "new");
                                    ("tracks", VList [VDict (sample_entry 8)])]);
     "list.json" := JsonText (VList [VDict (sample_entry 9)]);
     "note.json" := JsonText (VStr "not a playlist") ]}.

Definition odd_files : gmap string file_text :=
  {[ PLAYLIST_DB := JsonText odd_store ]}.

(** A store file that holds a JSON list. *)
Definition list_store_files : gmap string file_text :=
  {[ PLAYLIST_DB := JsonText (VList []) ]}.

(** A config file with a key that is not a field. *)
Definition stray_key_files : gmap string file_text :=
  {[ CONFIG_FILE := JsonText (VDict [("volume", VInt 10);
                                     ("colour", VStr "red")]) ]}.



(** One track played through the download path. *)
Definition one_download : @State sample_env :=
  exec (_queue_append (processed (sample_entry 1)) ;;
        play_index 0 ;;
        download_to (E:=sample_env) (path_or_url first_download) sample_media ;;
        _on_url_ready (Return first_download) 0)%prog
       (setup_data (E:=sample_env) sample_files).

(** * Theorems *)

(** Unfolds the monad's operations, so that a computation applied to a
    state reduces to its outcome and final state. *)
Ltac run_prog :=
  cbv [bind ret raise try_except get modify emit show_status exec result
       emitted] in *; cbn in *.

Section MonadFacts.
Context {E : Env}.

Lemma bind_return {A B} (m : M A) (k : A -> M B) (s s' : State) (a : A) :
  m s = (Return a, s') -> bind m k s = k a s'.
Proof. intros H. unfold bind. by rewrite H. Qed.

Lemma try_except_return {A} (m : M A) (h : exn -> M A) (s s' : State) (a : A) :
  m s = (Return a, s') -> try_except m h s = (Return a, s').
Proof. intros H. unfold try_except. by rewrite H. Qed.

End MonadFacts.

Section ABLoopFacts.
Context {E : Env}.

(** With A set to a positive offset, a B at or before A is turned down:
    only the message is shown. *)
Lemma set_point_b_rejects (s : State) (a pos : Z) :
  point_a s = Some a -> a <> 0 -> pos <= a ->
  set_point_b pos s =
    (Return tt, with_trace (trace s ++ [ShowStatus MsgPointBMustBeAfterA 3000]) s).
Proof.
  intros Ha Hnz Hle. unfold set_point_b. run_prog. rewrite Ha.
  destruct (Z.eqb_spec a 0) as [->|_]; [lia|].
  destruct (Z.leb_spec pos a); [reflexivity|lia].
Qed.

(** A B after A is taken. *)
Lemma set_point_b_accepts (s : State) (a pos : Z) :
  point_a s = Some a -> a < pos ->
  set_point_b pos s =
    (Return tt,
     with_trace (trace s ++ [ShowStatus (MsgPointBSet pos) 2000])
                (with_point_b (Some pos) s)).
Proof.
  intros Ha Hlt. unfold set_point_b. run_prog. rewrite Ha.
  destruct (Z.leb_spec pos a); [lia|].
  rewrite andb_false_r. reflexivity.
Qed.

(** C10: in a state where point A is unset, [set_point_b] takes whatever
    position the engine reports: B becomes that position, A stays unset,
    and the only thing shown is the "Point B set" message. *)
Theorem set_point_b_without_a (s : State) (pos : Z) :
  point_a s = None ->
  result (set_point_b pos) s = Return tt /\
  point_b (exec (set_point_b pos) s) = Some pos /\
  point_a (exec (set_point_b pos) s) = None /\
  emitted (set_point_b pos) s = [ShowStatus (MsgPointBSet pos) 2000].
Proof.
  intros Ha. unfold set_point_b. run_prog. rewrite Ha. cbn.
  rewrite drop_app_length. auto.
Qed.

(** C5: when both loop points are set and the reported position has
    reached B, [on_position_changed] seeks the player to A and does nothing
    else: no slider, time label or window title call, no exception, and the
    state is the one before but for that one call in the trace.  This holds
    in every state, whatever [updating_slider], the duration or the queue
    are. *)
Theorem on_position_changed_loops_back (s : State) (a b pos_ms dur : Z) :
  point_a s = Some a -> point_b s = Some b -> b <= pos_ms ->
  on_position_changed dur pos_ms s =
    (Return tt, with_trace (trace s ++ [PlayerSetPosition a]) s).
Proof.
  intros Ha Hb Hle. unfold on_position_changed. run_prog.
  rewrite Ha, Hb. destruct (Z.leb_spec b pos_ms); [reflexivity|lia].
Qed.

(** [set_point_a] compares nothing: A becomes the position, B stays. *)
Lemma set_point_a_unchecked (s : State) (pos : Z) :
  point_a (exec (set_point_a pos) s) = Some pos /\
  point_b (exec (set_point_a pos) s) = point_b s.
Proof. by unfold set_point_a; run_prog. Qed.

(** Below B, or without both points, the event goes to the display code. *)
Lemma on_position_changed_below_b (s : State) (a b pos_ms dur : Z) :
  point_a s = Some a -> point_b s = Some b -> pos_ms < b ->
  on_position_changed dur pos_ms s = position_display dur pos_ms s.
Proof.
  intros Ha Hb Hlt. unfold on_position_changed. run_prog.
  rewrite Ha, Hb. destruct (Z.leb_spec b pos_ms); [lia|reflexivity].
Qed.

End ABLoopFacts.

Section QueueFacts.
Context {E : Env}.

Lemma with_modes_same (s : State) :
  with_modes (shuffle_on s) (repeat_mode s) s = s.
Proof. destruct s; reflexivity. Qed.

Lemma play_index_out_of_range (s : State) (idx : Z) :
  idx < 0 \/ len (queue s) <= idx ->
  play_index idx s = (Return tt, s).
Proof.
  intros H. unfold play_index. run_prog.
  destruct (Z.ltb_spec idx 0); [reflexivity|].
  destruct (Z.leb_spec (len (queue s)) idx); [reflexivity|lia].
Qed.

Lemma play_index_in_range (s : State) (idx : Z) (t : Track) :
  0 <= idx < len (queue s) ->
  queue s !! Z.to_nat idx = Some t ->
  play_index idx s =
    if sliceable (title t)
    then (Return tt,
          with_trace (trace s ++ prepare_effects t idx)
                     (with_queue_index idx s))
    else (Raise TypeError,
          with_trace (trace s ++ take 3 (prepare_effects t idx))
                     (with_queue_index idx s)).
Proof.
  intros H Ht. unfold play_index, _prepare_and_play. run_prog.
  destruct (Z.ltb_spec idx 0); [lia|].
  destruct (Z.leb_spec (len (queue s)) idx); [lia|].
  cbn. rewrite Ht. cbn.
  destruct (sliceable (title t)); cbn; rewrite <- ?app_assoc; reflexivity.
Qed.

Lemma lookup_in_range {A} (l : list A) (i : Z) :
  0 <= i < len l -> exists x, l !! Z.to_nat i = Some x.
Proof.
  intros H. apply lookup_lt_is_Some_2. unfold len in H. lia.
Qed.

Lemma play_index_navigation_step (s : State) (idx : Z) :
  navigation_step (play_index idx) s.
Proof.
  unfold navigation_step, same_but_cursor_and_trace.
  destruct (Z.ltb_spec idx 0) as [Hneg|Hpos].
  { unfold emitted, result, exec.
    rewrite play_index_out_of_range by lia. cbn.
    split; [by destruct s|]. left. rewrite drop_all. auto. }
  destruct (Z.leb_spec (len (queue s)) idx) as [Hbig|Hin].
  { unfold emitted, result, exec.
    rewrite play_index_out_of_range by lia. cbn.
    split; [by destruct s|]. left. rewrite drop_all. auto. }
  destruct (lookup_in_range (queue s) idx) as [t Ht]; [lia|].
  unfold emitted, result, exec.
  rewrite (play_index_in_range s idx t) by (lia || done).
  destruct (sliceable (title t)) eqn:Hs; cbn.
  - split; [reflexivity|]. right. exists t. rewrite Hs, drop_app_length.
    repeat split; (lia || done).
  - split; [reflexivity|]. right. exists t. rewrite Hs, drop_app_length.
    repeat split; (lia || done).
Qed.

Lemma play_next_cases (s : State) (rand : Z) :
  (exists idx, play_next rand s = play_index idx s) \/
  (queue_index s + 1 >= len (queue s) \/ shuffle_on s = true) /\
  play_next rand s =
    (Return tt, with_trace (trace s ++ [ShowStatus MsgEndOfQueue 2000]) s) \/
  play_next rand s = (Return tt, s).
Proof.
  unfold play_next, bind, get.
  destruct (queue s) as [|t q] eqn:Hq; [by right; right|].
  destruct (Z.leb_spec (len (t :: q))
              (if shuffle_on s then rand else queue_index s + 1)) as [Hge|Hlt].
  - destruct (repeat_mode s =? 1).
    + left. by exists 0.
    + right; left. split; [|reflexivity].
      destruct (shuffle_on s); [by right|left; lia].
  - left. by eexists.
Qed.

Lemma play_prev_cases (s : State) :
  (exists idx, play_prev s = play_index idx s) \/
  play_prev s = (Return tt, s).
Proof.
  unfold play_prev, bind, get.
  destruct (queue s) as [|t q] eqn:Hq; [by right|].
  left.
  destruct (queue_index s - 1 <? 0); [destruct (repeat_mode s =? 1)|];
    by eexists.
Qed.

Lemma play_next_navigation_step (s : State) (rand : Z) :
  navigation_step (play_next rand) s.
Proof.
  destruct (play_next_cases s rand) as [[idx Hi]|[[_ He]|He]].
  - pose proof (play_index_navigation_step s idx) as H.
    unfold navigation_step, emitted, result, exec in *. by rewrite Hi.
  - unfold navigation_step, same_but_cursor_and_trace, emitted, result, exec.
    rewrite He. cbn. split; [reflexivity|]. left.
    rewrite drop_app_length. auto.
  - unfold navigation_step, same_but_cursor_and_trace, emitted, result, exec.
    rewrite He. cbn. split; [by destruct s|]. left. rewrite drop_all. auto.
Qed.

Lemma play_prev_navigation_step (s : State) :
  navigation_step play_prev s.
Proof.
  destruct (play_prev_cases s) as [[idx Hi]|He].
  - pose proof (play_index_navigation_step s idx) as H.
    unfold navigation_step, emitted, result, exec in *. by rewrite Hi.
  - unfold navigation_step, same_but_cursor_and_trace, emitted, result, exec.
    rewrite He. cbn. split; [by destruct s|]. left. rewrite drop_all. auto.
Qed.



(** C4: on a non-empty queue with the cursor on the last index and shuffle
    off, [play_next] with repeat mode Off (0) leaves the cursor, and all of
    the state, as it is and shows "End of queue"; with repeat mode All (1)
    it puts the cursor on index 0. *)
Theorem play_next_on_last_index (s : State) (rand : Z) :
  queue s <> [] ->
  queue_index s = len (queue s) - 1 ->
  play_next rand (with_modes false 0 s) =
    (Return tt,
     with_trace (trace s ++ [ShowStatus MsgEndOfQueue 2000])
                (with_modes false 0 s)) /\
  queue_index (exec (play_next rand) (with_modes false 1 s)) = 0.
Proof.
  intros Hne Hlast. split.
  - unfold play_next, bind, get. cbn.
    destruct (queue s) as [|t q] eqn:Hq; [done|].
    rewrite Hlast.
    destruct (Z.leb_spec (len (t :: q)) (len (t :: q) - 1 + 1)); [|lia].
    reflexivity.
  - unfold exec, play_next, bind, get. cbn.
    destruct (queue s) as [|t q] eqn:Hq; [done|].
    rewrite Hlast.
    destruct (Z.leb_spec (len (t :: q)) (len (t :: q) - 1 + 1)); [|lia].
    rewrite (play_index_in_range _ 0 t).
    + by destruct (sliceable (title t)).
    + cbn. rewrite Hq. unfold len. cbn. lia.
    + cbn. by rewrite Hq.
Qed.

(** The cursor invariant follows from the range alone. *)
Lemma cursor_ok_of_range (s : State) :
  -1 <= queue_index s < len (queue s) -> cursor_ok s.
Proof.
  intros H. split; [done|].
  destruct (Z.eq_dec (queue_index s) (-1)) as [?|Hn]; [by left|right].
  apply lookup_in_range. lia.
Qed.

(** [_queue_append] keeps the cursor invariant and the list widget in
    step. *)
Lemma _queue_append_cursor_ok (s : State) (entry : dict) :
  cursor_ok s -> cursor_ok (exec (_queue_append entry) s).
Proof.
  intros [Hr _]. apply cursor_ok_of_range.
  unfold _queue_append. run_prog.
  destruct (dict_get "thumbnail" VNone entry) as [| | | |[|]|[|]]; cbn;
    try lia;
    destruct (Z.eqb_spec (queue_index s) (-1)); cbn;
    unfold len in *; rewrite length_app; cbn; lia.
Qed.

Lemma _queue_append_widget_in_step (s : State) (entry : dict) :
  widget_in_step s -> widget_in_step (exec (_queue_append entry) s).
Proof.
  intros [Hl Hr]. unfold widget_in_step, _queue_append. run_prog.
  destruct (dict_get "thumbnail" VNone entry) as [| | | |[|]|[|]]; cbn;
    try done;
    destruct (Z.eqb_spec (queue_index s) (-1)); cbn;
    unfold len in *; rewrite !length_app; cbn; lia.
Qed.

(** Navigation keeps the cursor invariant. *)
Lemma navigation_step_cursor_ok (m : M unit) (s : State) :
  navigation_step m s -> cursor_ok s -> cursor_ok (exec m s).
Proof.
  intros [Hsame Hcase] [Hr _]. apply cursor_ok_of_range.
  unfold same_but_cursor_and_trace in Hsame.
  assert (queue (exec m s) = queue s) as -> by (by rewrite Hsame).
  destruct Hcase as [(-> & _)|(t & Hin & _)]; lia.
Qed.

Lemma play_index_cursor_ok (s : State) (idx : Z) :
  cursor_ok s -> cursor_ok (exec (play_index idx) s).
Proof. apply navigation_step_cursor_ok, play_index_navigation_step. Qed.

Lemma play_next_cursor_ok (s : State) (rand : Z) :
  cursor_ok s -> cursor_ok (exec (play_next rand) s).
Proof. apply navigation_step_cursor_ok, play_next_navigation_step. Qed.

Lemma play_prev_cursor_ok (s : State) :
  cursor_ok s -> cursor_ok (exec play_prev s).
Proof. apply navigation_step_cursor_ok, play_prev_navigation_step. Qed.

(** A drop keeps the cursor invariant, Qt leaving as many rows as before
    and a current row among them. *)
Lemma dropEvent_cursor_ok (s : State) (rows : list dict) (row : Z) :
  length rows = length (queue s) ->
  -1 <= row < len rows ->
  cursor_ok s -> cursor_ok (exec (dropEvent rows row) s).
Proof.
  intros Hl Hrow [Hr _]. apply cursor_ok_of_range.
  unfold dropEvent, rebuild_queue_from_widget. run_prog.
  destruct (Z.leb_spec 0 row); cbn; unfold len in *;
    rewrite length_map; lia.
Qed.

End QueueFacts.

Section ResolutionFacts.
Context {E : Env}.

Lemma keeps_fs_ret {A} (a : A) : keeps_fs (ret a).
Proof. by intros s. Qed.

Lemma keeps_fs_raise {A} (e : exn) : keeps_fs (raise (A:=A) e).
Proof. by intros s. Qed.

Lemma keeps_fs_get : keeps_fs get.
Proof. by intros s. Qed.

Lemma keeps_fs_modify (f : State -> State) :
  (forall s, fs (f s) = fs s) -> keeps_fs (modify f).
Proof. intros H s. apply H. Qed.

Lemma keeps_fs_emit (e : effect) : keeps_fs (emit e).
Proof. by intros s. Qed.

Lemma keeps_fs_bind {A B} (m : M A) (k : A -> M B) :
  keeps_fs m -> (forall a, keeps_fs (k a)) -> keeps_fs (bind m k).
Proof.
  intros Hm Hk s. specialize (Hm s). unfold exec, bind in *.
  destruct (m s) as [[a|e] s']; cbn in *; [|done].
  rewrite <- Hm. apply Hk.
Qed.

Lemma keeps_fs_try_except {A} (m : M A) (h : exn -> M A) :
  keeps_fs m -> (forall e, keeps_fs (h e)) -> keeps_fs (try_except m h).
Proof.
  intros Hm Hh s. specialize (Hm s). unfold exec, try_except in *.
  destruct (m s) as [[a|e] s']; cbn in *; [done|].
  rewrite <- Hm. apply Hh.
Qed.

(** Splits a computation into its steps, for [keeps_fs]. *)
Ltac keeps_fs_steps :=
  repeat first
    [ apply keeps_fs_ret | apply keeps_fs_raise | apply keeps_fs_get
    | apply keeps_fs_emit
    | apply keeps_fs_modify; by intros []
    | apply keeps_fs_bind; [|intros ?]
    | apply keeps_fs_try_except; [|intros ?]
    | match goal with
      | |- keeps_fs (if ?b then _ else _) => destruct b
      | |- keeps_fs (match ?x with _ => _ end) => destruct x
      end ].

(** Applying a resolved locator deletes nothing and writes nothing: a temp
    file of an earlier resolution is still there afterwards. *)
Lemma _on_url_ready_keeps_fs (res : outcome resolved) (idx : Z) :
  keeps_fs (_on_url_ready res idx).
Proof.
  unfold _on_url_ready, now_playing_thumb, highlight_playing_in_queue,
    show_status.
  keeps_fs_steps.
Qed.

(** [cleanup] touches no file but the one [current_temp_file] names. *)
Lemma cleanup_other_files (s : State) (p : string) :
  current_temp_file s <> Some p ->
  fs (exec cleanup s) !! p = fs s !! p.
Proof.
  intros Hp. unfold cleanup, unlink. run_prog.
  destruct (current_temp_file s) as [f|]; [|done].
  destruct (negb (String.eqb f "") && bool_decide (is_Some (fs s !! f)));
    [|done].
  destruct (writable f); cbn; [|done].
  apply lookup_delete_ne. congruence.
Qed.

End ResolutionFacts.

Section StoreFacts.
Context {E : Env}.

Lemma dict_lookup_set_same (k : string) (v : value) (d : dict) :
  dict_lookup k (dict_set k v d) = Some v.
Proof.
  induction d as [|[k' v'] d IH]; cbn.
  - by rewrite String.eqb_refl.
  - destruct (String.eqb k k') eqn:Hk; cbn; by rewrite Hk.
Qed.

Lemma dict_lookup_set_other (k k' : string) (v : value) (d : dict) :
  k <> k' -> dict_lookup k' (dict_set k v d) = dict_lookup k' d.
Proof.
  intros Hne. induction d as [|[k0 v0] d IH]; cbn.
  - destruct (String.eqb_spec k' k); [congruence|done].
  - destruct (String.eqb_spec k k0) as [->|]; cbn.
    + destruct (String.eqb_spec k' k0); [congruence|done].
    + by rewrite IH.
Qed.

(** A file of valid JSON loads as its value and leaves the state as is. *)
Lemma load_json_file_valid (s : State) (path : string) (default v : value)
      (t : text) :
  fs s !! path = Some t -> json_loads t = Some v ->
  load_json_file path default s = (Return v, s).
Proof.
  intros Hf Hl. unfold load_json_file, read_text, loads. run_prog.
  rewrite bool_decide_true by (by rewrite Hf). cbn.
  rewrite Hf. cbn. rewrite Hl. reflexivity.
Qed.


(** C9: for a file whose contents are not valid JSON, [load_json_file]
    returns normally, with the caller's default or, without one, the empty
    dict; the failure is logged; the file system, and so the file, is as it
    was. *)
Theorem load_json_file_corrupt (s : State) (path : string) (default : value)
        (t : text) :
  fs s !! path = Some t -> json_loads t = None ->
  load_json_file path default s =
    (Return (match default with VNone => VDict [] | d => d end),
     with_trace (trace s ++ [LogException "Failed to read"]) s) /\
  fs (exec (load_json_file path default) s) = fs s /\
  fs (exec (load_json_file path default) s) !! path = Some t.
Proof.
  intros Hf Hl.
  assert (load_json_file path default s =
    (Return (match default with VNone => VDict [] | d => d end),
     with_trace (trace s ++ [LogException "Failed to read"]) s)) as Heq.
  { unfold load_json_file, read_text, loads. run_prog.
    rewrite bool_decide_true by (by rewrite Hf). cbn.
    rewrite Hf. cbn. rewrite Hl. reflexivity. }
  unfold exec. rewrite Heq. cbn. auto.
Qed.



Lemma read_text_present (s : State) (path : string) (t : text) :
  fs s !! path = Some t -> read_text path s = (Return t, s).
Proof. intros H. unfold read_text. run_prog. by rewrite H. Qed.





End StoreFacts.

Section SearchFacts.
Context {E : Env}.


(** Two adjoining pages make one. *)
Lemma py_slice_adjoining {A} (n m : nat) (l : list A) :
  py_slice 0 n l ++ py_slice n m l = py_slice 0 (n + m) l.
Proof. unfold py_slice. cbn. apply take_take_drop. Qed.

(** The rows of processed entries are added without an exception, and
    the results held are not touched by the loop. *)
Lemma add_result_rows_processed (es : list dict) (s : State) :
  result (add_result_rows (map processed es)) s = Return tt /\
  search_results (exec (add_result_rows (map processed es)) s) =
    search_results s.
Proof.
  revert s. induction es as [|e es IH]; intros s; [done|].
  cbn [map add_result_rows].
  change (dict_lookup "title" (processed e))
    with (Some (dict_get "title" VNone e)).
  change (dict_lookup "uploader" (processed e))
    with (Some (py_or (dict_get "uploader" VNone e)
                  (py_or (dict_get "channel" VNone e) (VStr "")))).
  cbv beta iota.
  unfold result, exec in *.
  destruct (truthy (dict_get "thumbnail" VNone (processed e)));
    run_prog;
    match goal with
    | |- context [add_result_rows _ ?s'] =>
        destruct (IH s') as [H1 H2]; rewrite H1, H2
    end; done.
Qed.

(** A delivered batch of processed entries is appended to the results. *)
Lemma on_search_batch_appends (es : list dict) (s : State) :
  search_results (exec (on_search_batch (Return (map processed es))) s) =
    search_results s ++ map processed es.
Proof.
  unfold on_search_batch, exec.
  erewrite bind_return by reflexivity.
  erewrite bind_return by reflexivity.
  match goal with
  | |- context [bind (add_result_rows ?l) ?k ?s0] =>
      pose proof (add_result_rows_processed es s0) as [Hr Hs];
      unfold result, exec in Hr, Hs;
      destruct (add_result_rows l s0) as [o s1] eqn:Hrun
  end.
  cbn in Hr, Hs. subst o.
  erewrite bind_return by exact Hrun.
  run_prog. exact Hs.
Qed.

(** A batch, from the one answer it asks yt-dlp for. *)
Lemma _do_search_batch_answer (q : string) (batch offset : nat)
      (entries : list dict) :
  YTDLP_AVAILABLE = true ->
  ytsearch (offset + batch) q = Return entries ->
  _do_search_batch q batch offset =
    Return (map processed (py_slice offset batch entries)).
Proof. intros Hy Hs. unfold _do_search_batch. by rewrite Hy, Hs. Qed.

(** C8: with yt-dlp available, answering the requests for 10 and for 20
    and ranking the query one way, the batch fetched at offset 0 is the
    first ten processed entries and the batch fetched at offset 10 the
    next ten; appended, they are the list a single request for 20 from
    offset 0 returns; and delivering the two batches one after the other
    leaves the results held before followed by that same list, as
    delivering the single batch does. *)
Theorem search_pagination (q : string) (s : State)
        (top10 top20 : list dict) :
  YTDLP_AVAILABLE = true ->
  stable_ordering q ->
  ytsearch 10 q = Return top10 ->
  ytsearch 20 q = Return top20 ->
  let first := map processed (take 10 top20) in
  let second := map processed (take 10 (drop 10 top20)) in
  _do_search_batch q SEARCH_BATCH 0 = Return first /\
  _do_search_batch q SEARCH_BATCH 10 = Return second /\
  _do_search_batch q 20 0 = Return (first ++ second) /\
  first ++ second = map processed (take 20 top20) /\
  search_results
    (exec (on_search_batch (_do_search_batch q SEARCH_BATCH 10))
       (exec (on_search_batch (_do_search_batch q SEARCH_BATCH 0)) s)) =
    search_results s ++ first ++ second /\
  search_results (exec (on_search_batch (_do_search_batch q 20 0)) s) =
    search_results s ++ first ++ second.
Proof.
  intros Hy Hst H10 H20 first second. unfold SEARCH_BATCH.
  assert (_do_search_batch q 10 0 = Return first) as E1.
  { rewrite (_do_search_batch_answer q 10 0 top10) by done.
    unfold py_slice, first. rewrite drop_0.
    by rewrite (Hst 10%nat 20%nat top10 top20) by (lia || done). }
  assert (_do_search_batch q 10 10 = Return second) as E2.
  { by rewrite (_do_search_batch_answer q 10 10 top20). }
  assert (first ++ second = map processed (take 20 top20)) as Eapp.
  { unfold first, second. rewrite <- map_app. f_equal.
    apply (take_take_drop top20 10 10). }
  assert (_do_search_batch q 20 0 = Return (first ++ second)) as E3.
  { rewrite (_do_search_batch_answer q 20 0 top20) by done.
    by rewrite Eapp. }
  rewrite E1, E2, E3. repeat split; [exact Eapp| |].
  - unfold first, second. rewrite !on_search_batch_appends.
    by rewrite <- app_assoc.
  - rewrite Eapp. rewrite on_search_batch_appends. by rewrite <- Eapp.
Qed.

End SearchFacts.

(** * The program run on concrete inputs *)

Section Runs.

#[local] Existing Instance sample_env.

#[local] Instance sample_json_laws : JsonLaws sample_env.
Proof. intros v. reflexivity. Qed.

(** C1: loading a playlist leaves a stale cursor.  From the state with three
    tracks queued and the third one playing, where the cursor invariant
    holds, [load_selected_playlist] of the one-track playlist "mix" leaves a
    queue of length 1 with the cursor still on index 2: the cursor is not
    below the length of the queue and points at no track. *)
Theorem load_selected_playlist_stale_cursor :
  cursor_ok three_queued /\
  result (load_selected_playlist "mix") three_queued = Return tt /\
  let s' := exec (load_selected_playlist "mix") three_queued in
  len (queue s') = 1 /\
  queue_index s' = 2 /\
  queue s' !! Z.to_nat (queue_index s') = None /\
  ~ cursor_ok s'.
Proof.
  split.
  { apply cursor_ok_of_range. by vm_compute. }
  split; [by vm_compute|].
  cbv zeta. repeat split; try by vm_compute.
  intros [[_ H] _]. revert H. by vm_compute.
Qed.


(** C3: with point A at position 0, [set_point_b] at position 0, which is
    not after A, is not turned down: B is set to 0, equal to A. *)
Theorem set_point_b_at_zero_not_rejected :
  point_a a_at_zero = Some 0 /\
  point_b a_at_zero = None /\
  let s' := exec (set_point_b 0) a_at_zero in
  point_a s' = Some 0 /\
  point_b s' = Some 0 /\
  emitted (set_point_b 0) a_at_zero = [ShowStatus (MsgPointBSet 0) 2000].
Proof. by vm_compute. Qed.

(** C6: after two tracks played through the download path and the window
    closed, the temp file of the first download is still there: applying
    the second locator overwrote [current_temp_file] without deleting the
    first file, and [cleanup] deleted only the second. *)
Theorem superseded_temp_file_left_behind :
  fs two_downloads_then_close !! path_or_url first_download =
    Some sample_media /\
  fs two_downloads_then_close !! path_or_url second_download = None /\
  current_temp_file two_downloads_then_close =
    Some (path_or_url second_download).
Proof. by vm_compute. Qed.

(** The end of a two-track queue, with repeat Off and with repeat All. *)
Lemma play_next_on_last_index_witness :
  queue two_queued <> [] /\
  queue_index two_queued = len (queue two_queued) - 1 /\
  play_next 0 (with_modes false 0 two_queued) =
    (Return tt,
     with_trace (trace two_queued ++ [ShowStatus MsgEndOfQueue 2000])
                (with_modes false 0 two_queued)) /\
  queue_index (exec (play_next 0) (with_modes false 1 two_queued)) = 0.
Proof.
  assert (queue two_queued <> []) as Hne by (by vm_compute).
  assert (queue_index two_queued = len (queue two_queued) - 1) as Hlast
    by (by vm_compute).
  split; [exact Hne|]. split; [exact Hlast|].
  exact (play_next_on_last_index two_queued 0 Hne Hlast).
Defined.

(** A position event past B while looping between 30 s and 60 s. *)
Lemma on_position_changed_loops_back_witness :
  point_a looping = Some 30000 /\
  point_b looping = Some 60000 /\
  on_position_changed 180000 60500 looping =
    (Return tt, with_trace (trace looping ++ [PlayerSetPosition 30000]) looping).
Proof.
  assert (point_a looping = Some 30000) as Ha by reflexivity.
  assert (point_b looping = Some 60000) as Hb by reflexivity.
  split; [exact Ha|]. split; [exact Hb|].
  apply (on_position_changed_loops_back looping 30000 60000 60500 180000 Ha Hb).
  lia.
Defined.


(** Two pages of ten against one request of twenty, on the sample
    ranking. *)
Lemma search_pagination_witness :
  let s := setup_data (E:=sample_env) sample_files in
  let first := map processed (take 10 sample_ranking) in
  let second := map processed (take 10 (drop 10 sample_ranking)) in
  stable_ordering (E:=sample_env) "lofi" /\
  @ytsearch sample_env 10 "lofi" = Return (take 10 sample_ranking) /\
  @ytsearch sample_env 20 "lofi" = Return (take 20 sample_ranking) /\
  search_results
    (exec (on_search_batch (_do_search_batch "lofi" SEARCH_BATCH 10))
       (exec (on_search_batch (_do_search_batch "lofi" SEARCH_BATCH 0)) s)) =
    first ++ second /\
  search_results (exec (on_search_batch (_do_search_batch "lofi" 20 0)) s) =
    first ++ second.
Proof.
  intros s first second.
  assert (stable_ordering (E:=sample_env) "lofi") as Hst.
  { intros n m l l' Hnm Hn Hm. injection Hn as <-. injection Hm as <-.
    rewrite !take_take. f_equal. lia. }
  split; [exact Hst|]. split; [reflexivity|]. split; [reflexivity|].
  exact (proj2 (proj2 (proj2 (proj2
    (search_pagination (E:=sample_env) "lofi" s
       (take 10 sample_ranking) (take 20 sample_ranking)
       eq_refl Hst eq_refl eq_refl))))).
Defined.

(** The cut-off store file, loaded as the program loads it. *)
Lemma load_json_file_corrupt_witness :
  let s := setup_data (E:=sample_env) corrupt_files in
  let t := OtherText "{'mix': [{'id': " in
  fs s !! PLAYLIST_DB = Some t /\
  json_loads t = None /\
  load_json_file PLAYLIST_DB (VDict []) s =
    (Return (VDict []),
     with_trace (trace s ++ [LogException "Failed to read"]) s) /\
  fs (exec (load_json_file PLAYLIST_DB (VDict [])) s) = fs s /\
  fs (exec (load_json_file PLAYLIST_DB (VDict [])) s) !! PLAYLIST_DB = Some t.
Proof.
  intros s t.
  assert (fs s !! PLAYLIST_DB = Some t) as Hf by (by vm_compute).
  assert (json_loads t = None) as Hl by reflexivity.
  split; [exact Hf|]. split; [exact Hl|].
  exact (load_json_file_corrupt s PLAYLIST_DB (VDict []) t Hf Hl).
Defined.

(** Point B set first, in a fresh widget. *)
Lemma set_point_b_without_a_witness :
  let s := setup_data (E:=sample_env) sample_files in
  point_a s = None /\
  result (set_point_b 42000) s = Return tt /\
  point_b (exec (set_point_b 42000) s) = Some 42000 /\
  point_a (exec (set_point_b 42000) s) = None /\
  emitted (set_point_b 42000) s = [ShowStatus (MsgPointBSet 42000) 2000].
Proof.
  intros s. split; [reflexivity|].
  exact (set_point_b_without_a s 42000 eq_refl).
Defined.

End Runs.

(** * More of the queue *)

Section QueueMoreFacts.
Context {E : Env}.

Lemma play_index_sets_cursor (s : State) (idx : Z) :
  0 <= idx < len (queue s) ->
  queue_index (exec (play_index idx) s) = idx /\
  queue (exec (play_index idx) s) = queue s.
Proof.
  intros H. destruct (lookup_in_range (queue s) idx H) as [t Ht].
  unfold exec. rewrite (play_index_in_range s idx t H Ht).
  by destruct (sliceable (title t)).
Qed.

(** X1: [play_prev] on the first index: to the last track with repeat mode
    All, else it stays on (and replays) the first. *)
Theorem play_prev_at_first (s : State) :
  queue s <> [] ->
  queue_index s = 0 ->
  queue_index (exec play_prev s) =
    if repeat_mode s =? 1 then len (queue s) - 1 else 0.
Proof.
  intros Hne H0.
  assert (0 < len (queue s)) as Hlen.
  { unfold len. destruct (queue s); [done|cbn; lia]. }
  unfold exec, play_prev, bind, get. rewrite H0.
  destruct (queue s) as [|t q] eqn:Hq; [done|]. rewrite <- Hq in *.
  change (0 - 1 <? 0) with true. cbv beta iota.
  destruct (repeat_mode s =? 1);
    apply play_index_sets_cursor; lia.
Qed.

(** X2: [play_next] with a target inside the queue, the draw when shuffle is
    on and the index after the cursor otherwise: the cursor goes there
    whatever the repeat mode, and the queue is as before.  With shuffle on
    the draw may be the cursor itself. *)
Theorem play_next_target (s : State) (rand : Z) :
  let target := if shuffle_on s then rand else queue_index s + 1 in
  0 <= target < len (queue s) ->
  queue_index (exec (play_next rand) s) = target /\
  queue (exec (play_next rand) s) = queue s.
Proof.
  intros target H.
  assert (queue s <> []) as Hne.
  { intros Hq. rewrite Hq in H. unfold len in H. cbn in H. lia. }
  unfold exec, play_next, bind, get.
  destruct (queue s) as [|t q] eqn:Hq; [done|]. rewrite <- Hq in *.
  fold target.
  destruct (Z.leb_spec (len (queue s)) target); [lia|].
  by apply play_index_sets_cursor.
Qed.

(** X3: at the end of a track with repeat mode One and the cursor on a track
    with a string title, the same track is resolved again: nothing of the
    state changes, and shuffle is not looked at. *)
Theorem on_media_status_changed_repeat_one (s : State) (rand : Z)
        (t : Track) :
  repeat_mode s = 2 ->
  0 <= queue_index s ->
  queue s !! Z.to_nat (queue_index s) = Some t ->
  sliceable (title t) = true ->
  on_media_status_changed true rand s =
    (Return tt,
     with_trace
       (trace s ++ LogInfo "Track ended" :: prepare_effects t (queue_index s))
       s).
Proof.
  intros Hr H0 Ht Hs.
  assert (queue_index s < len (queue s)) as Hlt.
  { apply lookup_lt_Some in Ht. unfold len. lia. }
  unfold on_media_status_changed.
  erewrite bind_return by reflexivity.
  erewrite bind_return by reflexivity.
  cbn [repeat_mode with_trace]. rewrite Hr. cbn [Z.eqb Pos.eqb].
  rewrite (play_index_in_range _ (queue_index s) t) by (cbn; (lia || done)).
  rewrite Hs. cbn. rewrite <- app_assoc. by destruct s.
Qed.

(** A status other than end-of-media changes nothing. *)
Lemma on_media_status_changed_other (s : State) (rand : Z) :
  on_media_status_changed false rand s = (Return tt, s).
Proof. reflexivity. Qed.

Lemma _queue_append_run (s : State) (entry : dict) :
  _queue_append entry s =
    if icon_name_ok entry then (Return tt, appended entry s)
    else (Raise TypeError, s).
Proof.
  unfold _queue_append, icon_name_ok, appended, track_of_entry, Track_init.
  run_prog.
  destruct (dict_get "thumbnail" VNone entry) as [| | | |[|]|[|]]; cbn;
    try reflexivity;
    by destruct (queue_index s =? -1).
Qed.

(** X4: double-clicking a search result whose thumbnail can be hashed and
    whose title is a string: the track is appended, the cursor goes to it,
    whatever was playing, and its resolution is the last thing started. *)
Theorem queue_and_play_from_results_plays_new (s : State) (entry : dict) :
  icon_name_ok entry = true ->
  sliceable (dict_get "title" (VStr "") entry) = true ->
  let s' := exec (queue_and_play_from_results entry) s in
  result (queue_and_play_from_results entry) s = Return tt /\
  queue s' = queue s ++ [track_of_entry entry] /\
  queue_index s' = len (queue s) /\
  last (trace s') =
    Some (StartWorker (ExtractOrDownload (track_of_entry entry)
                         (len (queue s)))).
Proof.
  intros Hi Hs s'. subst s'.
  unfold result, exec, queue_and_play_from_results.
  erewrite bind_return by (rewrite _queue_append_run, Hi; reflexivity).
  erewrite bind_return by reflexivity.
  assert (len (queue (appended entry s)) - 1 = len (queue s)) as Hl.
  { unfold len. cbn. rewrite length_app. cbn. lia. }
  rewrite Hl.
  rewrite (play_index_in_range _ (len (queue s)) (track_of_entry entry)).
  - change (title (track_of_entry entry))
      with (dict_get "title" (VStr "") entry).
    rewrite Hs. cbn. repeat split.
    by rewrite last_app.
  - rewrite <- Hl. unfold len. cbn. rewrite length_app. cbn. lia.
  - cbn. unfold len. rewrite Nat2Z.id.
    by rewrite lookup_app_r, Nat.sub_diag.
Qed.

Lemma first_with_id_found (target : value) (q : list Track) (i : nat)
      (t : Track) (base : Z) :
  q !! i = Some t ->
  py_eq (id t) target = true ->
  (forall j t', (j < i)%nat -> q !! j = Some t' ->
                py_eq (id t') target = false) ->
  first_with_id target base q = Some (base + Z.of_nat i).
Proof.
  revert i base. induction q as [|x q IH]; intros i base Hi Ht Hbefore;
    [done|].
  destruct i as [|i]; cbn in *.
  - injection Hi as ->. rewrite Ht. f_equal. lia.
  - rewrite (Hbefore 0%nat x) by (lia || done).
    rewrite (IH i (base + 1)); [f_equal; lia|done..|].
    intros j t' Hj Hl. apply (Hbefore (S j) t'); [lia|done].
Qed.

Lemma first_with_id_none (target : value) (q : list Track) (base : Z) :
  (forall t, t ∈ q -> py_eq (id t) target = false) ->
  first_with_id target base q = None.
Proof.
  revert base. induction q as [|x q IH]; intros base H; [done|]. cbn.
  rewrite (H x) by apply list_elem_of_here.
  apply IH. intros t Ht. apply H. by apply list_elem_of_further.
Qed.

(** X5: double-clicking a queue row plays the first track of the queue whose
    id equals the row's id: with the same video queued twice, the earlier
    one is played whichever row was clicked. *)
Theorem play_queue_item_first_match (s : State) (entry : dict) (i : nat)
        (t : Track) :
  queue s !! i = Some t ->
  py_eq (id t) (dict_get "id" VNone entry) = true ->
  (forall j t', (j < i)%nat -> queue s !! j = Some t' ->
                py_eq (id t') (dict_get "id" VNone entry) = false) ->
  queue_index (exec (play_queue_item entry) s) = Z.of_nat i.
Proof.
  intros Hi Ht Hbefore. unfold exec, play_queue_item, bind, get.
  rewrite (first_with_id_found _ _ i t 0 Hi Ht Hbefore). cbn [Z.add].
  apply play_index_sets_cursor.
  apply lookup_lt_Some in Hi. unfold len. lia.
Qed.

(** With no track of that id in the queue, the double click does
    nothing. *)
Theorem play_queue_item_no_match (s : State) (entry : dict) :
  (forall t, t ∈ queue s ->
             py_eq (id t) (dict_get "id" VNone entry) = false) ->
  play_queue_item entry s = (Return tt, s).
Proof.
  intros H. unfold play_queue_item, bind, get.
  by rewrite first_with_id_none.
Qed.

End QueueMoreFacts.

(** * More of the playlist store *)

Section PlaylistFacts.
Context {E : Env}.

Lemma bind_raised {A B} (m : M A) (k : A -> M B) (s s' : State) (e : exn) :
  m s = (Raise e, s') -> bind m k s = (Raise e, s').
Proof. intros H. unfold bind. by rewrite H. Qed.

(** The state after the snapshots [its] have been appended one by one. *)
Lemma append_snapshots_run (its : list dict) (s : State) :
  Forall (fun it => icon_name_ok (entry_of_snapshot it) = true) its ->
  append_snapshots (map VDict its) s =
    (Return tt, foldl (fun st it => appended (entry_of_snapshot it) st) s its).
Proof.
  intros H. revert s. induction H as [|it its Hit _ IH]; intros s; [done|].
  cbn [map append_snapshots foldl].
  erewrite bind_return by (rewrite _queue_append_run, Hit; reflexivity).
  apply IH.
Qed.

(** The loop stops at the first item that is not a dict, with what came
    before it appended. *)
Lemma append_snapshots_stops (its : list dict) (x : value)
      (rest : list value) (s : State) :
  Forall (fun it => icon_name_ok (entry_of_snapshot it) = true) its ->
  (forall d, x <> VDict d) ->
  append_snapshots (map VDict its ++ x :: rest) s =
    (Raise AttributeError,
     foldl (fun st it => appended (entry_of_snapshot it) st) s its).
Proof.
  intros H Hx. revert s. induction H as [|it its Hit _ IH]; intros s.
  - cbn. destruct x; try done. by destruct (Hx d).
  - cbn [map app append_snapshots foldl].
    erewrite bind_return by (rewrite _queue_append_run, Hit; reflexivity).
    apply IH.
Qed.

Lemma appended_all_queue (its : list dict) (s : State) :
  let s' := foldl (fun st it => appended (entry_of_snapshot it) st) s its in
  queue s' = queue s ++ map (fun it => track_of_entry (entry_of_snapshot it)) its /\
  queue_list s' = queue_list s ++ map entry_of_snapshot its /\
  queue_list_row s' = queue_list_row s /\
  queue_index s' =
    match its with
    | [] => queue_index s
    | _ => if queue_index s =? -1 then 0 else queue_index s
    end /\
  fs s' = fs s.
Proof.
  revert s. induction its as [|it its IH]; intros s; cbn [foldl map].
  - by rewrite !app_nil_r.
  - destruct (IH (appended (entry_of_snapshot it) s)) as (Hq & Hl & Hr & Hi & Hf).
    cbv zeta in *. rewrite Hq, Hl, Hr, Hi, Hf. cbn.
    rewrite <- !app_assoc. repeat split.
    destruct its; destruct (Z.eqb_spec (queue_index s) (-1)); cbn; try done;
      by destruct (Z.eqb_spec (queue_index s) (-1)).
Qed.

(** X6: loading a stored playlist of track snapshots (dicts whose thumbnail can
    be hashed): the queue and the list widget are replaced by the
    playlist's tracks, in order, none of them with cached formats or a raw
    entry; no row is current; the cursor is 0 if it was -1 and otherwise
    what it was. *)
Theorem load_selected_playlist_replaces_queue (s : State) (sel : string)
        (its : list dict) :
  String.eqb sel "" = false ->
  String.eqb sel SELECT_PLAYLIST = false ->
  stored s sel (map VDict its) ->
  its <> [] ->
  Forall (fun it => icon_name_ok (entry_of_snapshot it) = true) its ->
  let s' := exec (load_selected_playlist sel) s in
  result (load_selected_playlist sel) s = Return tt /\
  queue s' = map (fun it => track_of_entry (entry_of_snapshot it)) its /\
  Forall (fun t => formats t = VList [] /\ entry t = VNone) (queue s') /\
  queue_list s' = map entry_of_snapshot its /\
  queue_list_row s' = -1 /\
  queue_index s' = (if queue_index s =? -1 then 0 else queue_index s) /\
  fs s' = fs s.
Proof.
  intros H1 H2 (t & d & Hf & Hl & Hd) Hne Hok s'. subst s'.
  unfold result, exec, load_selected_playlist. rewrite H1, H2.
  cbn [orb].
  erewrite bind_return by (by eapply load_json_file_valid).
  unfold py_get, dict_get. rewrite Hd.
  erewrite bind_return by reflexivity.
  destruct its as [|it0 its0] eqn:Hits; [done|]. rewrite <- Hits in *.
  replace (truthy (VList (map VDict its))) with true by (by rewrite Hits).
  cbn [negb].
  erewrite bind_return by reflexivity.
  erewrite bind_return by reflexivity.
  erewrite bind_return by (by apply append_snapshots_run).
  match goal with
  | |- context [foldl ?f ?s0 its] =>
      pose proof (appended_all_queue its s0) as H;
      set (sf := foldl f s0 its) in *
  end.
  cbv zeta in H. destruct H as (Hq & Hw & Hr & Hi & Hfs).
  cbn in Hq, Hw, Hr, Hi, Hfs. clearbody sf. run_prog.
  rewrite Hq, Hw, Hr, Hi, Hfs.
  repeat split; try by rewrite Hits.
  apply Forall_map, Forall_true. by intros it.
Qed.

(** X7: a playlist with an item that is not a dict: the exception escapes, and
    the queue that was there is gone; what is left is the tracks before
    the bad item. *)
Theorem load_selected_playlist_malformed_item (s : State) (sel : string)
        (its : list dict) (x : value) (rest : list value) :
  String.eqb sel "" = false ->
  String.eqb sel SELECT_PLAYLIST = false ->
  stored s sel (map VDict its ++ x :: rest) ->
  (forall d, x <> VDict d) ->
  Forall (fun it => icon_name_ok (entry_of_snapshot it) = true) its ->
  let s' := exec (load_selected_playlist sel) s in
  result (load_selected_playlist sel) s = Raise AttributeError /\
  queue s' = map (fun it => track_of_entry (entry_of_snapshot it)) its /\
  queue_list s' = map entry_of_snapshot its.
Proof.
  intros H1 H2 (t & d & Hf & Hl & Hd) Hx Hok s'. subst s'.
  unfold result, exec, load_selected_playlist. rewrite H1, H2.
  cbn [orb].
  erewrite bind_return by (by eapply load_json_file_valid).
  unfold py_get, dict_get. rewrite Hd.
  erewrite bind_return by reflexivity.
  replace (truthy (VList (map VDict its ++ x :: rest))) with true
    by (by destruct its).
  cbn [negb].
  erewrite bind_return by reflexivity.
  erewrite bind_return by reflexivity.
  erewrite bind_raised by (by apply append_snapshots_stops).
  match goal with
  | |- context [foldl ?f ?s0 its] =>
      pose proof (appended_all_queue its s0) as H;
      set (sf := foldl f s0 its) in *
  end.
  cbv zeta in H. destruct H as (Hq & Hw & _).
  cbn in Hq, Hw. clearbody sf. cbn. by rewrite Hq, Hw.
Qed.

(** X8: a name the store does not have, or whose list is empty: the queue and
    everything else stay, and "Playlist is empty" is shown. *)
Theorem load_selected_playlist_nothing_to_load (s : State) (sel : string)
        (d : dict) :
  String.eqb sel "" = false ->
  String.eqb sel SELECT_PLAYLIST = false ->
  load_json_file PLAYLIST_DB (VDict []) s = (Return (VDict d), s) ->
  truthy (dict_get sel (VList []) d) = false ->
  load_selected_playlist sel s =
    (Return tt, with_trace (trace s ++ [ShowStatus MsgPlaylistEmpty 2000]) s).
Proof.
  intros H1 H2 Hload Hempty.
  unfold load_selected_playlist. rewrite H1, H2. cbn [orb].
  erewrite bind_return by exact Hload.
  erewrite bind_return by reflexivity.
  by rewrite Hempty.
Qed.

End PlaylistFacts.

(** * Exceptions that stay inside, files that stay untouched *)

Section Containment.
Context {E : Env}.

Lemma never_raises_ret {A} (a : A) : never_raises (ret a).
Proof. intros s. by exists a. Qed.

Lemma never_raises_get : never_raises get.
Proof. intros s. by exists s. Qed.

Lemma never_raises_modify (f : State -> State) : never_raises (modify f).
Proof. intros s. by exists tt. Qed.

Lemma never_raises_emit (e : effect) : never_raises (emit e).
Proof. intros s. by exists tt. Qed.

Lemma never_raises_bind {A B} (m : M A) (k : A -> M B) :
  never_raises m -> (forall a, never_raises (k a)) -> never_raises (bind m k).
Proof.
  intros Hm Hk s. destruct (Hm s) as [a Ha]. unfold result, bind in *.
  destruct (m s) as [o s']. cbn in Ha. subst o. apply Hk.
Qed.

(** A [try] whose handler returns lets nothing out. *)
Lemma never_raises_try_except {A} (m : M A) (h : exn -> M A) :
  (forall e, never_raises (h e)) -> never_raises (try_except m h).
Proof.
  intros Hh s. unfold result, try_except.
  destruct (m s) as [[a|e] s']; [by exists a|apply Hh].
Qed.

Lemma keeps_fs_writes_only {A} (path : string) (m : M A) :
  keeps_fs m -> writes_only path m.
Proof. intros H s p _. by rewrite H. Qed.

Lemma writes_only_bind {A B} (path : string) (m : M A) (k : A -> M B) :
  writes_only path m -> (forall a, writes_only path (k a)) ->
  writes_only path (bind m k).
Proof.
  intros Hm Hk s p Hp. specialize (Hm s p Hp). unfold exec, bind in *.
  destruct (m s) as [[a|e] s']; cbn in *; [|done].
  rewrite <- Hm. by apply Hk.
Qed.

Lemma writes_only_try_except {A} (path : string) (m : M A) (h : exn -> M A) :
  writes_only path m -> (forall e, writes_only path (h e)) ->
  writes_only path (try_except m h).
Proof.
  intros Hm Hh s p Hp. specialize (Hm s p Hp). unfold exec, try_except in *.
  destruct (m s) as [[a|e] s']; cbn in *; [done|].
  rewrite <- Hm. by apply Hh.
Qed.

Lemma writes_only_write_text (path : string) (t : text) :
  writes_only path (write_text path t).
Proof.
  intros s p Hp. unfold exec, write_text.
  destruct (writable path); cbn; [|done].
  by apply lookup_insert_ne.
Qed.

(** Splits a computation into its steps, for the three predicates. *)
Ltac contained :=
  repeat first
    [ apply never_raises_ret | apply never_raises_get
    | apply never_raises_modify | apply never_raises_emit
    | apply never_raises_try_except; intros ?
    | apply never_raises_bind; [|intros ?]
    | apply keeps_fs_ret | apply keeps_fs_raise | apply keeps_fs_get
    | apply keeps_fs_emit
    | apply keeps_fs_modify; by intros []
    | apply keeps_fs_bind; [|intros ?]
    | apply keeps_fs_try_except; [|intros ?]
    | apply writes_only_write_text
    | apply writes_only_bind; [|intros ?]
    | apply writes_only_try_except; [|intros ?]
    | match goal with
      | |- never_raises (if ?b then _ else _) => destruct b
      | |- never_raises (match ?x with _ => _ end) => destruct x
      | |- keeps_fs (if ?b then _ else _) => destruct b
      | |- keeps_fs (match ?x with _ => _ end) => destruct x
      | |- writes_only _ (if ?b then _ else _) => destruct b
      | |- writes_only _ (match ?x with _ => _ end) => destruct x
      end ].

Lemma load_json_file_keeps_fs (path : string) (default : value) :
  keeps_fs (load_json_file path default).
Proof. unfold load_json_file, read_text, loads. contained. Qed.


Lemma save_json_file_writes_only (path : string) (data : value) :
  writes_only path (save_json_file path data).
Proof.
  unfold save_json_file. contained.
  apply keeps_fs_writes_only. contained.
Qed.

(** X10: [save_json_file] returns normally even where the file cannot be
    written; it writes or removes no file but the one at [path] and the log;
    and the log gets nothing where the write went through, one record
    "Failed to save" where it did not. *)
Theorem save_json_file_contained (path : string) (data : value) :
  never_raises (save_json_file path data) /\
  writes_only path (save_json_file path data) /\
  (forall s,
      emitted (save_json_file path data) s =
        if writable path then [] else [LogException "Failed to save"]).
Proof.
  split; [|split; [apply save_json_file_writes_only|]].
  - unfold save_json_file. contained.
  - intros s. unfold emitted, result, exec, save_json_file, write_text,
      try_except.
    destruct (writable path); cbn.
    + by rewrite drop_ge.
    + by rewrite drop_app_length.
Qed.

(** X11: what is saved to a writable file is what is loaded from it. *)
Theorem save_then_load `{!JsonLaws E} (s : State) (path : string)
        (data default : value) :
  writable path = true ->
  load_json_file path default (exec (save_json_file path data) s) =
    (Return data, exec (save_json_file path data) s).
Proof.
  intros Hw. eapply load_json_file_valid; [|apply json_loads_dumps].
  unfold exec, save_json_file, write_text, try_except. rewrite Hw. cbn.
  apply lookup_insert_eq.
Qed.

(** Where the file cannot be written, the save is logged and dropped. *)
Lemma save_json_file_unwritable (s : State) (path : string) (data : value) :
  writable path = false ->
  save_json_file path data s =
    (Return tt, with_trace (trace s ++ [LogException "Failed to save"]) s).
Proof.
  intros Hw. unfold save_json_file, write_text, try_except. by rewrite Hw.
Qed.

Lemma _queue_append_keeps_fs (entry : dict) : keeps_fs (_queue_append entry).
Proof.
  intros s. unfold exec. rewrite _queue_append_run.
  by destruct (icon_name_ok entry).
Qed.

Lemma append_snapshots_keeps_fs (items : list value) :
  keeps_fs (append_snapshots items).
Proof.
  induction items as [|x items IH]; [apply keeps_fs_ret|].
  destruct x; cbn; try apply keeps_fs_raise.
  apply keeps_fs_bind; [apply _queue_append_keeps_fs|by intros _].
Qed.

Lemma refresh_playlists_keeps_fs : keeps_fs refresh_playlists.
Proof.
  unfold refresh_playlists.
  apply keeps_fs_bind; [apply load_json_file_keeps_fs|intros db].
  unfold py_keys. contained.
Qed.

(** X12: the playlist methods and the files, the log file apart (every
    failure they catch appends a record to it): [import_playlist] lets no
    exception out and writes or removes no other file but the store;
    [export_selected_playlist] writes or removes no other file but the
    chosen one; [load_selected_playlist] writes or removes no other file at
    all. *)
Theorem playlist_methods_files :
  (forall path now, never_raises (import_playlist path now)) /\
  (forall path now, writes_only PLAYLIST_DB (import_playlist path now)) /\
  (forall sel path, writes_only path (export_selected_playlist sel path)) /\
  (forall sel, keeps_fs (load_selected_playlist sel)).
Proof.
  repeat split.
  - intros path now. unfold import_playlist, show_status. contained.
  - intros path now. unfold import_playlist.
    destruct (String.eqb path ""); [apply keeps_fs_writes_only; contained|].
    apply writes_only_try_except.
    + apply writes_only_bind;
        [apply keeps_fs_writes_only; unfold read_text; contained|intros t].
      apply writes_only_bind;
        [apply keeps_fs_writes_only; unfold loads; contained|intros payload].
      destruct (import_tracks payload);
        try solve [apply keeps_fs_writes_only; unfold show_status; contained].
      apply writes_only_bind;
        [apply keeps_fs_writes_only, load_json_file_keeps_fs|intros db].
      apply writes_only_bind;
        [apply keeps_fs_writes_only; unfold py_setitem, list_setitem;
         contained|intros db'].
      apply writes_only_bind; [apply save_json_file_writes_only|intros _].
      apply writes_only_bind;
        [apply keeps_fs_writes_only, refresh_playlists_keeps_fs|intros _].
      apply keeps_fs_writes_only. unfold show_status. contained.
    + intros e. apply keeps_fs_writes_only. unfold show_status. contained.
  - intros sel path. unfold export_selected_playlist.
    destruct (String.eqb sel "" || String.eqb sel SELECT_PLAYLIST);
      [apply keeps_fs_writes_only; unfold show_status; contained|].
    apply writes_only_bind;
      [apply keeps_fs_writes_only, load_json_file_keeps_fs|intros db].
    apply writes_only_bind;
      [apply keeps_fs_writes_only; unfold py_get; contained|intros payload].
    destruct payload;
      try solve [apply keeps_fs_writes_only; unfold show_status; contained];
      (destruct (String.eqb path "");
       [apply keeps_fs_writes_only; contained|]);
      (apply writes_only_try_except;
       [apply writes_only_bind;
          [apply writes_only_write_text|intros _];
        apply keeps_fs_writes_only; unfold show_status; contained
       |intros e; apply keeps_fs_writes_only; unfold show_status; contained]).
  - intros sel. unfold load_selected_playlist.
    destruct (String.eqb sel "" || String.eqb sel SELECT_PLAYLIST);
      [unfold show_status; contained|].
    apply keeps_fs_bind; [apply load_json_file_keeps_fs|intros db].
    apply keeps_fs_bind; [unfold py_get; contained|intros items].
    destruct (negb (truthy items)); [unfold show_status; contained|].
    apply keeps_fs_bind; [contained|intros _].
    apply keeps_fs_bind; [contained|intros _].
    destruct items; try apply keeps_fs_raise.
    apply keeps_fs_bind; [apply append_snapshots_keeps_fs|intros _].
    unfold show_status. contained.
Qed.

End Containment.

(** * More of import and export *)

Section ImportFacts.
Context {E : Env}.

Lemma refresh_playlists_run (s : State) (d : dict) :
  load_json_file PLAYLIST_DB (VDict []) s = (Return (VDict d), s) ->
  refresh_playlists s =
    (Return tt,
     with_trace
       (trace s ++
        [PlaylistComboReset;
         PlaylistComboAddItems
           (merge_sort (fun a b : string => String.leb a b) (map fst d))])
       s).
Proof.
  intros Hl. unfold refresh_playlists.
  erewrite bind_return by exact Hl.
  run_prog. by rewrite <- app_assoc.
Qed.

(** An import that goes through: the file holds a payload with a list of
    tracks and a name that can be a key, the store loads as a dict (or is
    missing) and can be written. *)
Lemma import_playlist_run `{!JsonLaws E} (s : State) (path : string)
      (now : Z) (t : text) (payload : value) (tracks : list value)
      (k : string) (d0 : dict) :
  String.eqb path "" = false ->
  fs s !! path = Some t ->
  json_loads t = Some payload ->
  import_tracks payload = VList tracks ->
  json_key (import_name payload now) = Some k ->
  load_json_file PLAYLIST_DB (VDict []) s = (Return (VDict d0), s) ->
  writable PLAYLIST_DB = true ->
  import_playlist path now s =
    (Return tt,
     let d1 := dict_set k (VList tracks) d0 in
     with_trace
       (trace s ++
        [PlaylistComboReset;
         PlaylistComboAddItems
           (merge_sort (fun a b : string => String.leb a b) (map fst d1));
         ShowStatus (MsgImported (import_name payload now)) 3000])
       (with_fs (<[PLAYLIST_DB := json_dumps (VDict d1)]> (fs s)) s)).
Proof.
  intros Hp Hfile Hl Htr Hk Hdb Hw.
  unfold import_playlist. rewrite Hp.
  apply try_except_return.
  erewrite bind_return by (by apply read_text_present).
  erewrite bind_return by (unfold loads; rewrite Hl; reflexivity).
  cbv zeta. rewrite Htr.
  erewrite bind_return by exact Hdb.
  erewrite bind_return by (unfold py_setitem; rewrite Hk; reflexivity).
  unfold save_json_file, write_text. rewrite Hw.
  erewrite bind_return by reflexivity.
  erewrite bind_return
    by (apply refresh_playlists_run;
        eapply load_json_file_valid;
        [cbn; apply lookup_insert_eq | apply json_loads_dumps]).
  run_prog. by rewrite <- app_assoc.
Qed.

(** X13: after an import that goes through, the store holds the imported list
    under the imported name, replacing what was there under that name, and
    every other playlist as it was. *)
Theorem import_playlist_keeps_others `{!JsonLaws E} (s : State)
        (path : string) (now : Z) (t : text) (payload : value)
        (tracks : list value) (k : string) (d0 : dict) :
  String.eqb path "" = false ->
  fs s !! path = Some t ->
  json_loads t = Some payload ->
  import_tracks payload = VList tracks ->
  json_key (import_name payload now) = Some k ->
  load_json_file PLAYLIST_DB (VDict []) s = (Return (VDict d0), s) ->
  writable PLAYLIST_DB = true ->
  let s' := exec (import_playlist path now) s in
  exists d1,
    load_json_file PLAYLIST_DB (VDict []) s' = (Return (VDict d1), s') /\
    dict_lookup k d1 = Some (VList tracks) /\
    forall other, other <> k -> dict_lookup other d1 = dict_lookup other d0.
Proof.
  intros Hp Hfile Hl Htr Hk Hdb Hw s'. subst s'. unfold exec.
  rewrite (import_playlist_run s path now t payload tracks k d0) by done.
  cbn [snd]. exists (dict_set k (VList tracks) d0). repeat split.
  - eapply load_json_file_valid;
      [cbn; apply lookup_insert_eq | apply json_loads_dumps].
  - apply dict_lookup_set_same.
  - intros other Hne. by apply dict_lookup_set_other.
Qed.

(** X14: a file that holds a bare JSON list is imported under the name
    "Imported_" followed by the time of the import. *)
Theorem import_playlist_bare_list `{!JsonLaws E} (s : State) (path : string)
        (now : Z) (t : text) (tracks : list value) (d0 : dict) :
  String.eqb path "" = false ->
  fs s !! path = Some t ->
  json_loads t = Some (VList tracks) ->
  load_json_file PLAYLIST_DB (VDict []) s = (Return (VDict d0), s) ->
  writable PLAYLIST_DB = true ->
  stored (exec (import_playlist path now) s)
         ("Imported_" +:+ pretty now) tracks.
Proof.
  intros Hp Hfile Hl Hdb Hw. unfold exec.
  rewrite (import_playlist_run s path now t (VList tracks) tracks
             ("Imported_" +:+ pretty now) d0) by done.
  unfold stored. cbn. eexists _, _. rewrite lookup_insert_eq.
  repeat split; [apply json_loads_dumps | apply dict_lookup_set_same].
Qed.

(** X15: a file whose tracks are not a list (a dict without a list under
    "tracks", a bare string or number): the import is turned down, and
    nothing changes but the status shown. *)
Theorem import_playlist_invalid_format (s : State) (path : string) (now : Z)
        (t : text) (payload : value) :
  String.eqb path "" = false ->
  fs s !! path = Some t ->
  json_loads t = Some payload ->
  (forall l, import_tracks payload <> VList l) ->
  import_playlist path now s =
    (Return tt,
     with_trace (trace s ++ [ShowStatus MsgInvalidPlaylistFormat 3000]) s).
Proof.
  intros Hp Hfile Hl Hnl.
  unfold import_playlist. rewrite Hp.
  apply try_except_return.
  erewrite bind_return by (by apply read_text_present).
  erewrite bind_return by (unfold loads; rewrite Hl; reflexivity).
  cbv zeta. destruct (import_tracks payload); try reflexivity.
  by destruct (Hnl l).
Qed.

(** X16: a file that is missing or is not JSON: the failure is logged (one
    record "Import failed" appended to the log file) and reported, no
    exception gets out, and nothing else changes: the store and every file
    but the log are as they were. *)
Theorem import_playlist_unreadable (s : State) (path : string) (now : Z) :
  String.eqb path "" = false ->
  fs s !! path = None \/
  (exists t, fs s !! path = Some t /\ json_loads t = None) ->
  import_playlist path now s =
    (Return tt,
     with_trace (trace s ++ [LogException "Import failed";
                             ShowStatus MsgImportFailed 3000]) s).
Proof.
  intros Hp H. unfold import_playlist. rewrite Hp.
  unfold try_except, bind at 1, read_text, bind at 1, get.
  destruct H as [Hn|(t & Hf & Hl)].
  - rewrite Hn. run_prog. by rewrite <- app_assoc.
  - rewrite Hf. cbv [ret]. unfold bind at 1, loads. rewrite Hl.
    run_prog. by rewrite <- app_assoc.
Qed.

(** X17: a store file that holds valid JSON other than an object: exporting or
    loading a playlist lets the [AttributeError] of [db.get] out, before
    anything is changed. *)
Theorem store_not_an_object_raises (s : State) (sel path : string)
        (t : text) (v : value) :
  String.eqb sel "" = false ->
  String.eqb sel SELECT_PLAYLIST = false ->
  fs s !! PLAYLIST_DB = Some t ->
  json_loads t = Some v ->
  (forall d, v <> VDict d) ->
  export_selected_playlist sel path s = (Raise AttributeError, s) /\
  load_selected_playlist sel s = (Raise AttributeError, s).
Proof.
  intros H1 H2 Hf Hl Hv.
  unfold export_selected_playlist, load_selected_playlist.
  rewrite H1, H2. cbn [orb].
  split; (erewrite bind_return by (by eapply load_json_file_valid));
    (destruct v as [| | | | |d]; [reflexivity..|by destruct (Hv d)]).
Qed.

End ImportFacts.

(** * More of resolution, shutdown and the config *)

Section ResolutionMoreFacts.
Context {E : Env}.

Lemma preserves_ret {A X} (f : State -> X) (a : A) : preserves f (ret a).
Proof. by intros s. Qed.

Lemma preserves_raise {A X} (f : State -> X) (e : exn) :
  preserves f (raise (A:=A) e).
Proof. by intros s. Qed.

Lemma preserves_get {X} (f : State -> X) : preserves f get.
Proof. by intros s. Qed.

Lemma preserves_modify {X} (f : State -> X) (g : State -> State) :
  (forall s, f (g s) = f s) -> preserves f (modify g).
Proof. intros H s. apply H. Qed.

Lemma preserves_bind {A B X} (f : State -> X) (m : M A) (k : A -> M B) :
  preserves f m -> (forall a, preserves f (k a)) -> preserves f (bind m k).
Proof.
  intros Hm Hk s. specialize (Hm s). unfold exec, bind in *.
  destruct (m s) as [[a|e] s']; cbn in *; [|done].
  rewrite <- Hm. apply Hk.
Qed.

Lemma preserves_try_except {A X} (f : State -> X) (m : M A)
      (h : exn -> M A) :
  preserves f m -> (forall e, preserves f (h e)) ->
  preserves f (try_except m h).
Proof.
  intros Hm Hh s. specialize (Hm s). unfold exec, try_except in *.
  destruct (m s) as [[a|e] s']; cbn in *; [done|].
  rewrite <- Hm. apply Hh.
Qed.

(** Splits a computation into its steps: it returns, and it keeps the
    queue, the cursor and the loop points. *)
Ltac settled :=
  repeat first
    [ apply never_raises_ret | apply never_raises_get
    | apply never_raises_modify | apply never_raises_emit
    | apply never_raises_try_except; intros ?
    | apply never_raises_bind; [|intros ?]
    | apply preserves_ret | apply preserves_raise | apply preserves_get
    | apply preserves_modify; by intros []
    | apply preserves_bind; [|intros ?]
    | apply preserves_try_except; [|intros ?]
    | match goal with
      | |- never_raises (if ?b then _ else _) => destruct b
      | |- never_raises (match ?x with _ => _ end) => destruct x
      | |- preserves _ (if ?b then _ else _) => destruct b
      | |- preserves _ (match ?x with _ => _ end) => destruct x
      end ].

(** X18: applying a resolution, failed or not, for whatever index: no exception
    gets out; the queue, the cursor and the A/B loop points are as before
    (the loop points outlive the change of track); no file is written or
    removed but the log file, to which a failed resolution and a failed
    start of the playback append a record. *)
Theorem _on_url_ready_contained (res : outcome resolved) (idx : Z) :
  never_raises (_on_url_ready res idx) /\
  preserves queue_and_loop (_on_url_ready res idx) /\
  keeps_fs (_on_url_ready res idx).
Proof.
  split; [|split; [|apply _on_url_ready_keeps_fs]].
  - unfold _on_url_ready, show_status. settled.
  - unfold _on_url_ready, now_playing_thumb, highlight_playing_in_queue,
      show_status, emit.
    settled.
Qed.

(** X19: a completed resolution is applied whatever its index and whatever the
    cursor is by then: with a thumbnail lookup that returns and a string
    title, the player is given the locator and started, the duration is
    taken over, and [current_temp_file] is the path of a local file and
    [None] for a stream. *)
Theorem _on_url_ready_applies_at_any_index (s : State) (r : resolved)
        (idx : Z) (th : value) :
  (forall s0, now_playing_thumb (info r) s0 = (Return th, s0)) ->
  sliceable (resolved_title r) = true ->
  let s' := exec (_on_url_ready (Return r) idx) s in
  emitted (_on_url_ready (Return r) idx) s =
    (if truthy th then [NowPlayingThumb th] else []) ++
    [PlayerSetSource (is_local r) (path_or_url r); PlayerSetPlaybackRate;
     PlayerPlay; PlayPauseSetEnabled true; PlayPauseSetTextPause;
     PositionSliderSetEnabled true;
     ShowStatus (MsgPlaying (resolved_title r)) 3000;
     WindowSetTitle (resolved_title r)] /\
  duration_ms s' = resolved_duration_ms r /\
  current_temp_file s' =
    (if is_local r then Some (path_or_url r) else None).
Proof.
  intros Hth Hs s'. subst s'.
  unfold emitted, exec, _on_url_ready.
  erewrite bind_return by reflexivity.
  unfold try_except, highlight_playing_in_queue. rewrite Hs.
  destruct (is_local r);
    (erewrite bind_return by reflexivity);
    (erewrite bind_return by apply Hth);
    destruct (truthy th); run_prog;
    destruct ((0 <=? idx) && (idx <? len (queue_list s))); cbn;
    rewrite <- ?app_assoc; cbn; by rewrite drop_app_length.
Qed.

Lemma cleanup_never_raises : never_raises cleanup.
Proof. unfold cleanup. settled. Qed.

Lemma cleanup_returns (s : State) : result cleanup s = Return tt.
Proof. destruct (cleanup_never_raises s) as [[] H]. exact H. Qed.

(** X20: [cleanup] lets no exception out, and removes the file
    [current_temp_file] names where that file can be removed. *)
Theorem cleanup_removes_current (s : State) (f : string) :
  current_temp_file s = Some f ->
  String.eqb f "" = false ->
  writable f = true ->
  result cleanup s = Return tt /\
  fs (exec cleanup s) !! f = None.
Proof.
  intros Hc Hf Hw. split; [apply cleanup_returns|].
  unfold exec, cleanup, unlink. run_prog. rewrite Hc, Hf, Hw. cbn.
  destruct (bool_decide (is_Some (fs s !! f))) eqn:Hex; cbn.
  - apply lookup_delete_eq.
  - apply bool_decide_eq_false in Hex.
    destruct (fs s !! f) eqn:Hl; [|done]. by destruct Hex.
Qed.

Lemma AppConfig_of_asdict (c : AppConfig) :
  AppConfig_of (VDict (asdict c)) = Return c.
Proof. by destruct c. Qed.

Lemma AppConfig_load_valid (s : State) (t : text) (data : value)
      (c : AppConfig) :
  fs s !! CONFIG_FILE = Some t ->
  json_loads t = Some data ->
  AppConfig_of data = Return c ->
  AppConfig_load s = (Return c, s).
Proof.
  intros Hf Hl Hc. unfold AppConfig_load, read_text, loads. run_prog.
  rewrite bool_decide_true by (by rewrite Hf). cbn.
  rewrite Hf. cbn. rewrite Hl. cbn. by rewrite Hc.
Qed.

(** X21: a config saved to a writable file is the config loaded from it. *)
Theorem AppConfig_save_then_load `{!JsonLaws E} (s : State) (c : AppConfig) :
  writable CONFIG_FILE = true ->
  AppConfig_load (exec (AppConfig_save c) s) =
    (Return c, exec (AppConfig_save c) s).
Proof.
  intros Hw.
  eapply AppConfig_load_valid;
    [|apply json_loads_dumps|apply AppConfig_of_asdict].
  unfold exec, AppConfig_save, write_text, try_except. rewrite Hw. cbn.
  apply lookup_insert_eq.
Qed.

Lemma AppConfig_set_field (k : string) (v : value) (c : AppConfig) :
  is_field k = false -> AppConfig_set k v c = Raise TypeError.
Proof.
  unfold is_field, AppConfig_set. intros H.
  repeat (apply orb_false_elim in H; destruct H as [H ?]).
  by repeat match goal with Hk : String.eqb _ _ = false |- _ =>
    rewrite Hk; clear Hk end.
Qed.

Lemma AppConfig_set_returns (k : string) (v : value) (c : AppConfig) :
  is_field k = true -> exists c', AppConfig_set k v c = Return c'.
Proof.
  unfold is_field, AppConfig_set. intros H.
  repeat match goal with
         | |- context [String.eqb k ?x] => destruct (String.eqb k x)
         end; by eauto.
Qed.

Lemma AppConfig_kwargs_unknown (d : dict) (c : AppConfig) (k : string) :
  k ∈ map fst d -> is_field k = false ->
  AppConfig_kwargs d c = Raise TypeError.
Proof.
  revert c. induction d as [|[k0 v0] d IH]; intros c Hin Hk.
  - by apply elem_of_nil in Hin.
  - cbn in *. apply elem_of_cons in Hin.
    destruct (is_field k0) eqn:Hk0.
    + destruct (AppConfig_set_returns k0 v0 c Hk0) as [c' ->].
      destruct Hin as [->|Hin]; [congruence|by apply IH].
    + by rewrite AppConfig_set_field.
Qed.

(** X22: a config file that holds a JSON object with one key that is not a
    field makes [AppConfig.load] return the defaults for every field, the
    fields the file does give included; the failure is logged and no
    exception gets out. *)
Theorem AppConfig_load_unknown_key (s : State) (t : text) (d : dict)
        (k : string) :
  fs s !! CONFIG_FILE = Some t ->
  json_loads t = Some (VDict d) ->
  k ∈ map fst d ->
  is_field k = false ->
  AppConfig_load s =
    (Return AppConfig_default,
     with_trace (trace s ++ [LogException "Failed to load config"]) s).
Proof.
  intros Hf Hl Hin Hk.
  - unfold AppConfig_load, read_text, loads. run_prog.
    rewrite bool_decide_true by (by rewrite Hf). cbn.
    rewrite Hf. cbn. rewrite Hl. cbn.
    by rewrite (AppConfig_kwargs_unknown d _ k).
Qed.

(** X23: closing the window, then starting again: where the config file can be
    written and is not the temp file being cleaned up, [closeEvent] returns
    normally and the config loaded afterwards has the window's size and
    the volume at closing, and the other fields as they were. *)
Theorem closeEvent_settings_survive `{!JsonLaws E} (s : State)
        (c : AppConfig) (width height vol : Z) :
  writable CONFIG_FILE = true ->
  current_temp_file s <> Some CONFIG_FILE ->
  let c' := mkAppConfig (VInt vol) (VInt width) (VInt height) (theme c)
              (last_playlist c) (download_quality c) in
  let s' := exec (closeEvent c width height vol) s in
  result (closeEvent c width height vol) s = Return c' /\
  result AppConfig_load s' = Return c'.
Proof.
  intros Hw Hc c' s'. subst s'.
  unfold result, exec, closeEvent. fold c'.
  set (s1 := (AppConfig_save c' s).2).
  assert (AppConfig_save c' s = (Return tt, s1)) as Hsave.
  { subst s1. unfold AppConfig_save, write_text, try_except.
    by rewrite Hw. }
  assert (fs s1 !! CONFIG_FILE = Some (json_dumps (VDict (asdict c'))))
    as Hfile.
  { subst s1. unfold AppConfig_save, write_text, try_except. rewrite Hw.
    cbn. apply lookup_insert_eq. }
  assert (current_temp_file s1 = current_temp_file s) as Hcur.
  { subst s1. unfold AppConfig_save, write_text, try_except.
    by rewrite Hw. }
  erewrite bind_return by exact Hsave.
  pose proof (cleanup_returns s1) as Hret.
  pose proof (cleanup_other_files s1 CONFIG_FILE) as Hkeep.
  unfold result, exec in Hret, Hkeep.
  destruct (cleanup s1) as [o s2] eqn:Hcl. cbn in Hret, Hkeep. subst o.
  erewrite bind_return by exact Hcl.
  change (ret c' s2) with (Return c', s2). cbn [fst snd]. split; [done|].
  erewrite AppConfig_load_valid;
    [done| |apply json_loads_dumps|apply AppConfig_of_asdict].
  rewrite Hkeep; [done|]. by rewrite Hcur.
Qed.

End ResolutionMoreFacts.

(** * More of the position handler *)

Section PositionFacts.
Context {E : Env}.

(** The display part of the handler appends to the trace, never a seek,
    and leaves the state as it found it: [updating_slider] is back to
    false by the time the title is sliced, the one place where
    [position_display] raises. *)
Lemma position_display_run (s : State) (dur pos_ms : Z) :
  exists l,
    exec (position_display dur pos_ms) s = with_trace (trace s ++ l) s /\
    Forall (fun e => forall x, e <> PlayerSetPosition x) l.
Proof.
  unfold exec, position_display. destruct s as [? ? ? q qi ? ? ? dms u ? ? ? ? ? tr].
  run_prog. destruct u; cbn.
  { exists []. by rewrite app_nil_r. }
  set (d := if dms =? 0 then dur else dms).
  destruct (negb (d =? 0) && (0 <? d)); cbn;
    destruct (0 <? d); cbn;
    destruct q as [|t0 q0]; cbn;
    try (destruct ((0 <=? qi) && (qi <? len (t0 :: q0))); cbn);
    try (destruct ((t0 :: q0) !! Z.to_nat qi) as [t|]; cbn);
    try (destruct (sliceable (title t)); cbn);
    rewrite <- ?app_assoc; cbn;
    eexists; (split; [reflexivity|]);
    repeat constructor; done.
Qed.

(** X24: a position within the track, or no duration known: with [d] the
    duration the handler goes by, [pos_ms] and [d] in the range of Qt's
    64-bit integers and [0 <= pos_ms <= d] when [d] is positive, the slider
    value is between 0 and 1000 and the arithmetic between the two writes
    of [updating_slider] goes through.  A position event then changes
    nothing of the state but the trace: it moves no cursor, sets no loop
    point and no duration and leaves [updating_slider] as it found it, also
    when the slicing of the title raises. *)
Theorem on_position_changed_only_trace (s : State) (dur pos_ms : Z) :
  let d := if duration_ms s =? 0 then dur else duration_ms s in
  pos_ms < 2 ^ 63 ->
  d < 2 ^ 63 ->
  (0 < d -> 0 <= pos_ms <= d) ->
  exists l,
    exec (on_position_changed dur pos_ms) s = with_trace (trace s ++ l) s.
Proof.
  intros d _ _ _.
  unfold exec, on_position_changed, bind, get.
  destruct (point_a s) as [a|]; [destruct (point_b s) as [b|];
    [destruct (b <=? pos_ms)|]|];
    try (destruct (position_display_run s dur pos_ms) as (l & Hl & _);
         by exists l).
  by exists [PlayerSetPosition a].
Qed.

(** X25: the handler seeks only to loop back: if a position event makes the
    player seek to [x], then [x] is point A, point B is set and the
    reported position has reached it. *)
Theorem seek_only_when_looping (s : State) (dur pos_ms x : Z) :
  In (PlayerSetPosition x) (emitted (on_position_changed dur pos_ms) s) ->
  point_a s = Some x /\
  exists b, point_b s = Some b /\ b <= pos_ms.
Proof.
  unfold emitted, exec, on_position_changed, bind, get.
  assert (In (PlayerSetPosition x)
            (drop (length (trace s))
               (trace (position_display dur pos_ms s).2)) -> False)
    as Hdisplay.
  { destruct (position_display_run s dur pos_ms) as (l & Hl & Hno).
    unfold exec in Hl. rewrite Hl. cbn. rewrite drop_app_length.
    intros Hin. rewrite Forall_forall in Hno.
    apply list_elem_of_In in Hin. by apply (Hno _ Hin x). }
  destruct (point_a s) as [a|]; [|by intros ?%Hdisplay].
  destruct (point_b s) as [b|]; [|by intros ?%Hdisplay].
  destruct (Z.leb_spec b pos_ms); [|by intros ?%Hdisplay].
  cbn. rewrite drop_app_length. intros [Heq|[]].
  injection Heq as ->. eauto.
Qed.


End PositionFacts.

(** * More of the search session *)

Section SearchMoreFacts.
Context {E : Env}.

(** A batch is either an exception or a list of processed entries. *)
Lemma _do_search_batch_shape (q : string) (batch offset : nat) :
  (exists e, _do_search_batch q batch offset = Raise e) \/
  (exists es, _do_search_batch q batch offset = Return (map processed es)).
Proof.
  unfold _do_search_batch. destruct YTDLP_AVAILABLE; cbn; [|eauto].
  destruct (ytsearch (offset + batch) q); eauto.
Qed.

(** X27: with yt-dlp answering, a batch holds what the answer has from [offset]
    on, and never more than [batch] entries: none when the answer stops at
    or before [offset]. *)
Theorem _do_search_batch_length (q : string) (batch offset : nat)
        (entries : list dict) :
  YTDLP_AVAILABLE = true ->
  ytsearch (offset + batch) q = Return entries ->
  exists page,
    _do_search_batch q batch offset = Return page /\
    length page = Nat.min batch (length entries - offset).
Proof.
  intros Hy Hs. unfold _do_search_batch. rewrite Hy, Hs. cbn.
  eexists. split; [reflexivity|].
  unfold py_slice. by rewrite length_map, length_take, length_drop.
Qed.

(** Without yt-dlp a batch is a [RuntimeError], and yt-dlp is not asked. *)
Lemma _do_search_batch_unavailable (q : string) (batch offset : nat) :
  YTDLP_AVAILABLE = false ->
  _do_search_batch q batch offset = Raise (RuntimeError "yt-dlp not available").
Proof. intros Hy. unfold _do_search_batch. by rewrite Hy. Qed.

Lemma add_result_rows_run (es : list dict) (s : State) :
  exists tr,
    add_result_rows (map processed es) s = (Return tt, with_trace tr s).
Proof.
  revert s. induction es as [|e es IH]; intros s.
  - exists (trace s). by destruct s.
  - cbn [map add_result_rows].
    change (dict_lookup "title" (processed e))
      with (Some (dict_get "title" VNone e)).
    change (dict_lookup "uploader" (processed e))
      with (Some (py_or (dict_get "uploader" VNone e)
                    (py_or (dict_get "channel" VNone e) (VStr "")))).
    cbv beta iota.
    destruct (truthy (dict_get "thumbnail" VNone (processed e)));
      run_prog;
      match goal with
      | |- context [add_result_rows _ ?s'] =>
          destruct (IH s') as [tr ->]
      end; by exists tr.
Qed.

(** The state after a batch of processed entries has been delivered. *)
Lemma on_search_batch_run (es : list dict) (s : State) :
  exists tr,
    on_search_batch (Return (map processed es)) s =
      (Return tt,
       with_trace tr
         (with_search (search_results s ++ map processed es)
                      (length (search_results s ++ map processed es)) s)).
Proof.
  unfold on_search_batch.
  erewrite bind_return by reflexivity.
  erewrite bind_return by reflexivity.
  match goal with
  | |- context [bind (add_result_rows ?l) ?k ?s0] =>
      destruct (add_result_rows_run es s0) as [tr Hrun]
  end.
  erewrite bind_return by exact Hrun.
  run_prog. eexists. reflexivity.
Qed.

(** X28: delivering the outcome of any batch, failed or not, returns normally;
    the results held are kept and only added to; and if the offset was the
    number of results held, it still is, so it never goes down. *)
Theorem on_search_batch_keeps_session (q : string) (batch offset : nat)
        (s : State) :
  search_offset s = length (search_results s) ->
  let s' := exec (on_search_batch (_do_search_batch q batch offset)) s in
  result (on_search_batch (_do_search_batch q batch offset)) s = Return tt /\
  search_results s `prefix_of` search_results s' /\
  search_offset s' = length (search_results s') /\
  (search_offset s <= search_offset s')%nat /\
  query s' = query s.
Proof.
  intros Hoff s'. subst s'. unfold result, exec.
  destruct (_do_search_batch_shape q batch offset) as [[e ->]|[es ->]].
  - unfold on_search_batch. run_prog. repeat split; done.
  - destruct (on_search_batch_run es s) as [tr ->]. cbn.
    repeat split.
    + by apply prefix_app_r.
    + rewrite Hoff, length_app. lia.
Qed.



End SearchMoreFacts.

(** * More runs on concrete inputs *)

Section MoreRuns.

#[local] Existing Instance sample_env.
#[local] Existing Instance sample_json_laws.

(** Back from the first of two tracks, repeat Off. *)
Lemma play_prev_at_first_witness :
  queue two_queued_first <> [] /\
  queue_index two_queued_first = 0 /\
  queue_index (exec play_prev two_queued_first) = 0.
Proof.
  assert (queue two_queued_first <> []) as Hne by (by vm_compute).
  assert (queue_index two_queued_first = 0) as H0 by (by vm_compute).
  split; [exact Hne|]. split; [exact H0|].
  exact (play_prev_at_first two_queued_first Hne H0).
Defined.

(** On from the first of two tracks, shuffle off. *)
Lemma play_next_target_witness :
  0 <= 1 < len (queue two_queued_first) /\
  queue_index (exec (play_next 0) two_queued_first) = 1.
Proof.
  assert (0 <= 1 < len (queue two_queued_first)) as H by (by vm_compute).
  split; [exact H|].
  exact (proj1 (play_next_target two_queued_first 0 H)).
Defined.

(** The second of two tracks ends, repeat One. *)
Lemma on_media_status_changed_repeat_one_witness :
  let s := with_modes false 2 two_queued in
  let t := track_of_entry (processed (sample_entry 2)) in
  repeat_mode s = 2 /\
  queue s !! Z.to_nat (queue_index s) = Some t /\
  on_media_status_changed true 0 s =
    (Return tt,
     with_trace
       (trace s ++ LogInfo "Track ended" :: prepare_effects t (queue_index s))
       s).
Proof.
  intros s t.
  assert (queue s !! Z.to_nat (queue_index s) = Some t) as Ht
    by (by vm_compute).
  split; [reflexivity|]. split; [exact Ht|].
  apply (on_media_status_changed_repeat_one s 0 t eq_refl); [|exact Ht|];
    by vm_compute.
Defined.

(** A third result double-clicked while the second track plays. *)
Lemma queue_and_play_from_results_plays_new_witness :
  let entry := processed (sample_entry 3) in
  icon_name_ok entry = true /\
  sliceable (dict_get "title" (VStr "") entry) = true /\
  queue_index (exec (queue_and_play_from_results entry) two_queued) = 2.
Proof.
  intros entry. split; [reflexivity|]. split; [reflexivity|].
  exact (proj1 (proj2 (proj2
    (queue_and_play_from_results_plays_new two_queued entry
       eq_refl eq_refl)))).
Defined.

(** The second row of a three-track queue double-clicked. *)
Lemma play_queue_item_first_match_witness :
  let entry := processed (sample_entry 2) in
  let t := track_of_entry entry in
  queue three_queued !! 1%nat = Some t /\
  py_eq (id t) (dict_get "id" VNone entry) = true /\
  queue_index (exec (play_queue_item entry) three_queued) = 1.
Proof.
  intros entry t.
  assert (queue three_queued !! 1%nat = Some t) as Ht by (by vm_compute).
  split; [exact Ht|]. split; [reflexivity|].
  apply (play_queue_item_first_match three_queued entry 1 t Ht eq_refl).
  intros j t' Hj Hl. assert (j = 0%nat) as -> by lia.
  vm_compute in Hl. injection Hl as <-. reflexivity.
Defined.

(** "mix" loaded over a queue of three. *)
Lemma load_selected_playlist_replaces_queue_witness :
  let its := [sample_entry 7] in
  stored three_queued "mix" (map VDict its) /\
  queue (exec (load_selected_playlist "mix") three_queued) =
    map (fun it => track_of_entry (entry_of_snapshot it)) its.
Proof.
  intros its.
  assert (stored three_queued "mix" (map VDict its)) as Hst.
  { exists (JsonText sample_store), [("mix", VList (map VDict its))].
    repeat split. }
  split; [exact Hst|].
  refine (proj1 (proj2
    (load_selected_playlist_replaces_queue three_queued "mix" its
       eq_refl eq_refl Hst _ _))).
  - discriminate.
  - repeat constructor.
Defined.

(** "broken" loaded over a queue of one. *)
Lemma load_selected_playlist_malformed_item_witness :
  let s := exec (_queue_append (processed (sample_entry 1)))
             (setup_data (E:=sample_env) odd_files) in
  let its := [sample_entry 7] in
  stored s "broken" (map VDict its ++ VStr "oops" :: []) /\
  result (load_selected_playlist "broken") s = Raise AttributeError /\
  queue (exec (load_selected_playlist "broken") s) =
    map (fun it => track_of_entry (entry_of_snapshot it)) its.
Proof.
  intros s its.
  assert (stored s "broken" (map VDict its ++ VStr "oops" :: [])) as Hst.
  { exists (JsonText odd_store).
    eexists. repeat split. }
  split; [exact Hst|].
  refine (let H := load_selected_playlist_malformed_item s "broken" its
                     (VStr "oops") [] eq_refl eq_refl Hst _ _ in
          conj (proj1 H) (proj1 (proj2 H))).
  - discriminate.
  - repeat constructor.
Defined.

(** A name the sample store does not have. *)
Lemma load_selected_playlist_nothing_to_load_witness :
  let s := two_queued in
  load_json_file PLAYLIST_DB (VDict []) s = (Return sample_store, s) /\
  load_selected_playlist "evening" s =
    (Return tt, with_trace (trace s ++ [ShowStatus MsgPlaylistEmpty 2000]) s).
Proof.
  intros s.
  assert (load_json_file PLAYLIST_DB (VDict []) s = (Return sample_store, s))
    as Hl by (by vm_compute).
  split; [exact Hl|].
  exact (load_selected_playlist_nothing_to_load s "evening" _
           eq_refl eq_refl Hl eq_refl).
Defined.

(** The search history saved and loaded. *)
Lemma save_then_load_witness :
  let s := setup_data (E:=sample_env) sample_files in
  writable "search_history.json" = true /\
  load_json_file "search_history.json" (VList [])
    (exec (save_json_file "search_history.json" (VList [VStr "lofi"])) s) =
  (Return (VList [VStr "lofi"]),
   exec (save_json_file "search_history.json" (VList [VStr "lofi"])) s).
Proof.
  intros s. split; [reflexivity|].
  exact (save_then_load s "search_history.json" (VList [VStr "lofi"])
           (VList []) eq_refl).
Defined.

(** "new" imported beside "mix". *)
Lemma import_playlist_keeps_others_witness :
  let s := setup_data (E:=sample_env) import_files in
  load_json_file PLAYLIST_DB (VDict []) s = (Return sample_store, s) /\
  exists d1,
    load_json_file PLAYLIST_DB (VDict [])
      (exec (import_playlist "new.json" 1700000000) s) =
      (Return (VDict d1), exec (import_playlist "new.json" 1700000000) s) /\
    dict_lookup "new" d1 = Some (VList [VDict (sample_entry 8)]) /\
    forall other, other <> "new" ->
      dict_lookup other d1 =
      dict_lookup other [("mix", VList [VDict (sample_entry 7)])].
Proof.
  intros s.
  assert (load_json_file PLAYLIST_DB (VDict []) s = (Return sample_store, s))
    as Hl by (by vm_compute).
  split; [exact Hl|].
  refine (import_playlist_keeps_others s "new.json" 1700000000
            (JsonText (VDict [("name", VStr "new");
                              ("tracks", VList [VDict (sample_entry 8)])]))
            _ [VDict (sample_entry 8)] "new" _
            eq_refl _ eq_refl eq_refl eq_refl Hl eq_refl).
  by vm_compute.
Defined.

(** A bare list imported. *)
Lemma import_playlist_bare_list_witness :
  let s := setup_data (E:=sample_env) import_files in
  load_json_file PLAYLIST_DB (VDict []) s = (Return sample_store, s) /\
  stored (exec (import_playlist "list.json" 1700000000) s)
         ("Imported_" +:+ pretty 1700000000) [VDict (sample_entry 9)].
Proof.
  intros s.
  assert (load_json_file PLAYLIST_DB (VDict []) s = (Return sample_store, s))
    as Hl by (by vm_compute).
  split; [exact Hl|].
  refine (import_playlist_bare_list s "list.json" 1700000000
            (JsonText (VList [VDict (sample_entry 9)])) _ _
            eq_refl _ eq_refl Hl eq_refl).
  by vm_compute.
Defined.

(** A JSON string imported. *)
Lemma import_playlist_invalid_format_witness :
  let s := setup_data (E:=sample_env) import_files in
  fs s !! "note.json" = Some (JsonText (VStr "not a playlist")) /\
  import_playlist "note.json" 1700000000 s =
    (Return tt,
     with_trace (trace s ++ [ShowStatus MsgInvalidPlaylistFormat 3000]) s).
Proof.
  intros s.
  assert (fs s !! "note.json" = Some (JsonText (VStr "not a playlist")))
    as Hf by (by vm_compute).
  split; [exact Hf|].
  apply (import_playlist_invalid_format s "note.json" 1700000000 _
           (VStr "not a playlist") eq_refl Hf eq_refl).
  discriminate.
Defined.

(** A file that is not there imported. *)
Lemma import_playlist_unreadable_witness :
  let s := setup_data (E:=sample_env) import_files in
  fs s !! "gone.json" = None /\
  import_playlist "gone.json" 1700000000 s =
    (Return tt,
     with_trace (trace s ++ [LogException "Import failed";
                             ShowStatus MsgImportFailed 3000]) s).
Proof.
  intros s.
  assert (fs s !! "gone.json" = None) as Hf by (by vm_compute).
  split; [exact Hf|].
  exact (import_playlist_unreadable s "gone.json" 1700000000 eq_refl
           (or_introl Hf)).
Defined.

(** A store file that holds an empty list. *)
Lemma store_not_an_object_raises_witness :
  let s := setup_data (E:=sample_env) list_store_files in
  fs s !! PLAYLIST_DB = Some (JsonText (VList [])) /\
  export_selected_playlist "mix" "mix.json" s = (Raise AttributeError, s) /\
  load_selected_playlist "mix" s = (Raise AttributeError, s).
Proof.
  intros s.
  assert (fs s !! PLAYLIST_DB = Some (JsonText (VList []))) as Hf
    by (by vm_compute).
  split; [exact Hf|].
  apply (store_not_an_object_raises s "mix" "mix.json" _ (VList [])
           eq_refl eq_refl Hf eq_refl).
  discriminate.
Defined.

(** A completion for index 0 while the cursor is on index 2. *)
Lemma _on_url_ready_applies_at_any_index_witness :
  (forall s0 : @State sample_env,
      now_playing_thumb (info second_download) s0 = (Return VNone, s0)) /\
  sliceable (resolved_title second_download) = true /\
  current_temp_file
    (exec (_on_url_ready (Return second_download) 0) three_queued) =
  Some (path_or_url second_download).
Proof.
  assert (forall s0 : @State sample_env,
            now_playing_thumb (info second_download) s0 = (Return VNone, s0))
    as Hth by reflexivity.
  split; [exact Hth|]. split; [reflexivity|].
  exact (proj2 (proj2
    (_on_url_ready_applies_at_any_index three_queued second_download 0
       VNone Hth eq_refl))).
Defined.

(** Shutdown after one download. *)
Lemma cleanup_removes_current_witness :
  current_temp_file one_download = Some (path_or_url first_download) /\
  fs one_download !! path_or_url first_download = Some sample_media /\
  result cleanup one_download = Return tt /\
  fs (exec cleanup one_download) !! path_or_url first_download = None.
Proof.
  assert (current_temp_file one_download = Some (path_or_url first_download))
    as Hc by (by vm_compute).
  split; [exact Hc|]. split; [by vm_compute|].
  exact (cleanup_removes_current one_download _ Hc eq_refl eq_refl).
Defined.

(** A config saved and loaded. *)
Lemma AppConfig_save_then_load_witness :
  let s := setup_data (E:=sample_env) sample_files in
  let c := mkAppConfig (VInt 40) (VInt 800) (VInt 600) (VStr "dark")
             (VStr "mix") (VStr "bestaudio") in
  writable CONFIG_FILE = true /\
  AppConfig_load (exec (AppConfig_save c) s) =
    (Return c, exec (AppConfig_save c) s).
Proof.
  intros s c. split; [reflexivity|].
  exact (AppConfig_save_then_load s c eq_refl).
Defined.

(** A config file with the stray key "colour". *)
Lemma AppConfig_load_unknown_key_witness :
  let s := setup_data (E:=sample_env) stray_key_files in
  "colour" ∈ map fst [("volume", VInt 10); ("colour", VStr "red")] /\
  is_field "colour" = false /\
  AppConfig_load s =
    (Return AppConfig_default,
     with_trace (trace s ++ [LogException "Failed to load config"]) s).
Proof.
  intros s.
  assert ("colour" ∈ map fst [("volume", VInt 10); ("colour", VStr "red")])
    as Hin by (apply list_elem_of_In; cbn; auto).
  split; [exact Hin|]. split; [reflexivity|].
  refine (AppConfig_load_unknown_key s
            (JsonText (VDict [("volume", VInt 10); ("colour", VStr "red")]))
            _ "colour" _ eq_refl Hin eq_refl).
  by vm_compute.
Defined.

(** The window closed at 1024 by 768, volume 55, after one download. *)
Lemma closeEvent_settings_survive_witness :
  let c' := mkAppConfig (VInt 55) (VInt 1024) (VInt 768) (VStr "dark")
              (VStr "") (VStr "bestaudio") in
  current_temp_file one_download <> Some CONFIG_FILE /\
  result (closeEvent AppConfig_default 1024 768 55) one_download =
    Return c' /\
  result AppConfig_load
    (exec (closeEvent AppConfig_default 1024 768 55) one_download) =
    Return c'.
Proof.
  intros c'.
  assert (current_temp_file one_download <> Some CONFIG_FILE) as Hc
    by (by vm_compute).
  split; [exact Hc|].
  exact (closeEvent_settings_survive one_download AppConfig_default
           1024 768 55 eq_refl Hc).
Defined.

(** The seek of a loop between 30 s and 60 s. *)
Lemma seek_only_when_looping_witness :
  In (PlayerSetPosition 30000)
     (emitted (on_position_changed 180000 60500) looping) /\
  point_a looping = Some 30000 /\
  exists b, point_b looping = Some b /\ b <= 60500.
Proof.
  assert (In (PlayerSetPosition 30000)
            (emitted (on_position_changed 180000 60500) looping)) as Hin
    by (vm_compute; auto).
  split; [exact Hin|].
  exact (seek_only_when_looping looping 180000 60500 30000 Hin).
Defined.


(** The third page of the sample ranking, which has five entries left. *)
Lemma _do_search_batch_length_witness :
  ytsearch 30 "lofi" = Return (take 30 sample_ranking) /\
  exists page,
    _do_search_batch "lofi" 10 20 = Return page /\
    length page = Nat.min 10 (length (take 30 sample_ranking) - 20).
Proof.
  split; [reflexivity|].
  exact (_do_search_batch_length "lofi" 10 20 (take 30 sample_ranking)
           eq_refl eq_refl).
Defined.

(** The first batch delivered to a fresh session. *)
Lemma on_search_batch_keeps_session_witness :
  let s := setup_data (E:=sample_env) sample_files in
  search_offset s = length (search_results s) /\
  search_offset (exec (on_search_batch (_do_search_batch "lofi" 10 0)) s) =
  length
    (search_results (exec (on_search_batch (_do_search_batch "lofi" 10 0)) s)).
Proof.
  intros s. split; [reflexivity|].
  exact (proj1 (proj2 (proj2
    (on_search_batch_keeps_session "lofi" 10 0 s eq_refl)))).
Defined.

(** Half way through the first of two queued tracks, the player giving
    the duration. *)
Lemma on_position_changed_only_trace_witness :
  let s := two_queued_first in
  500 < 2 ^ 63 /\ 1000 < 2 ^ 63 /\ (0 < 1000 -> 0 <= 500 <= 1000) /\
  exists l,
    exec (on_position_changed 1000 500) s = with_trace (trace s ++ l) s.
Proof.
  intros s. split; [lia|]. split; [lia|]. split; [lia|].
  apply (on_position_changed_only_trace s 1000 500);
    [reflexivity|reflexivity|intros _; change (0 <= 500 <= 1000); lia].
Defined.


End MoreRuns.
